(** * Vivid: the Vocabulary container and the rules of diagrammatic inference

    A shallow embedding of [vivid/Classes/Vocabulary.py] and of
    [vivid/classes/inference_rules.py].  Python values are Rocq values,
    exceptions are the [Raise] case of [result], a method that assigns to
    [self] returns the object after the call, and the rules, which only call
    into other classes, run in a state-and-exception monad over the store
    those classes live in. *)

From Stdlib Require Import String Ascii ZArith Bool Lia.
From stdpp Require Import base tactics option list sorting strings gmap.

Set Warnings "-register-all".

Local Open Scope string_scope.
Local Open Scope list_scope.

(** ** Python outcomes *)

Module Py.

(** The exceptions the two modules raise themselves; the others are what a
    call into another class can add. *)
Inductive exn : Type :=
| TypeError (msg : string)
| ValueError (msg : string)
| KeyError (msg : string)
| NotImplementedError (msg : string).

Inductive result (A : Type) : Type :=
| Ok (a : A)
| Raise (e : exn).

Arguments Ok {A} a.
Arguments Raise {A} e.

Definition rbind {A B} (r : result A) (k : A -> result B) : result B :=
  match r with
  | Ok a => k a
  | Raise e => Raise e
  end.

End Py.
Import Py.

(** ** Strings: [str.lower] and the order [sorted] compares keys with *)

Module Str.

(** [str.lower()] on a byte string: the letters A-Z move to a-z. *)
Definition lower_ascii (c : ascii) : ascii :=
  let n := nat_of_ascii c in
  if (65 <=? n)%nat && (n <=? 90)%nat then ascii_of_nat (n + 32) else c.

Fixpoint lower (s : string) : string :=
  match s with
  | EmptyString => EmptyString
  | String c s' => String (lower_ascii c) (lower s')
  end.

Lemma ascii_compare_refl (a : ascii) : Ascii.compare a a = Eq.
Proof. unfold Ascii.compare. apply N.compare_refl. Qed.

Lemma ascii_compare_lt_trans (a b c : ascii) :
  Ascii.compare a b = Lt -> Ascii.compare b c = Lt -> Ascii.compare a c = Lt.
Proof.
  unfold Ascii.compare. rewrite !N.compare_lt_iff. lia.
Qed.

Lemma compare_refl (s : string) : String.compare s s = Eq.
Proof.
  induction s as [|a s IH]; simpl; [reflexivity|].
  rewrite ascii_compare_refl. exact IH.
Qed.

Lemma compare_lt_trans (s1 : string) :
  forall s2 s3,
    String.compare s1 s2 = Lt -> String.compare s2 s3 = Lt ->
    String.compare s1 s3 = Lt.
Proof.
  induction s1 as [|a s1 IH]; intros [|b s2] [|c s3]; simpl;
    try congruence.
  destruct (Ascii.compare a b) eqn:Hab; try discriminate;
    destruct (Ascii.compare b c) eqn:Hbc; try discriminate; intros H1 H2.
  - apply Ascii.compare_eq_iff in Hab, Hbc. subst.
    rewrite ascii_compare_refl. eauto.
  - apply Ascii.compare_eq_iff in Hab. subst. rewrite Hbc. reflexivity.
  - apply Ascii.compare_eq_iff in Hbc. subst. rewrite Hab. reflexivity.
  - rewrite (ascii_compare_lt_trans _ _ _ Hab Hbc). reflexivity.
Qed.

Lemma leb_trans (s1 s2 s3 : string) :
  String.leb s1 s2 = true -> String.leb s2 s3 = true ->
  String.leb s1 s3 = true.
Proof.
  unfold String.leb.
  destruct (String.compare s1 s2) eqn:H12; try discriminate;
    destruct (String.compare s2 s3) eqn:H23; try discriminate; intros _ _.
  - apply String.compare_eq_iff in H12, H23. subst.
    rewrite compare_refl. reflexivity.
  - apply String.compare_eq_iff in H12. subst. rewrite H23. reflexivity.
  - apply String.compare_eq_iff in H23. subst. rewrite H12. reflexivity.
  - rewrite (compare_lt_trans _ _ _ H12 H23). reflexivity.
Qed.

Lemma ltb_leb (s1 s2 : string) :
  String.ltb s1 s2 = true -> String.leb s1 s2 = true.
Proof.
  unfold String.ltb, String.leb.
  destruct (String.compare s1 s2); simpl; congruence.
Qed.

Lemma ltb_false_leb (s1 s2 : string) :
  String.ltb s1 s2 = false -> String.leb s2 s1 = true.
Proof.
  unfold String.ltb, String.leb. rewrite (String.compare_antisym s2 s1).
  destruct (String.compare s1 s2); simpl; congruence.
Qed.

End Str.

(** ** [vivid/Classes/Vocabulary.py] *)

Module Voc.

(** Modelled from the spec: the RelationSymbol class is not among the
    sources; a symbol has a name and an arity, and two symbols are the same
    object of a set or a list when both agree. *)
Record RelationSymbol : Type := { _name : string; _arity : nat }.

Global Instance RelationSymbol_eq_dec : EqDecision RelationSymbol.
Proof. solve_decision. Defined.

(** The values a caller can hand to the class. *)
Inductive pyobj : Type :=
| PyNone
| PyInt (z : Z)
| PyStr (s : string)
| PyRel (r : RelationSymbol)
| PyList (l : list pyobj).

(** [isinstance(x, str)] for every entry, and the entries. *)
Fixpoint strs (l : list pyobj) : option (list string) :=
  match l with
  | [] => Some []
  | PyStr s :: l' => option_map (cons s) (strs l')
  | _ :: _ => None
  end.

(** [hasattr(x, "_is_RelationSymbol")] for every entry, and the entries. *)
Fixpoint rels (l : list pyobj) : option (list RelationSymbol) :=
  match l with
  | [] => Some []
  | PyRel r :: l' => option_map (cons r) (rels l')
  | _ :: _ => None
  end.

(** What the interpreter decides and the source does not: the order in
    which a [set] built from a list hands its elements back (each element
    once, placed by the hash table), and the builtin [hash] of the key
    tuple. *)
Class Runtime : Type := {
  py_set : forall {A : Type} `{EqDecision A}, list A -> list A;
  py_set_NoDup : forall {A : Type} `{EqDecision A} (l : list A),
      NoDup (py_set l);
  py_set_elem : forall {A : Type} `{EqDecision A} (l : list A) (x : A),
      x ∈ py_set l <-> x ∈ l;
  py_hash : list string * list RelationSymbol * list string -> Z
}.

(** [x in l] on a list. *)
Definition mem {A : Type} `{EqDecision A} (x : A) (l : list A) : bool :=
  bool_decide (x ∈ l).

(** [s & t] and [s == t] on sets given by their elements. *)
Definition set_and {A : Type} `{EqDecision A} (s t : list A) : list A :=
  filter (fun x => x ∈ t) s.

Definition set_eq {A : Type} `{EqDecision A} (s t : list A) : bool :=
  forallb (fun x => mem x t) s && forallb (fun x => mem x s) t.

(** [sorted(l, key=key)]: insertion from the left, each element going
    behind the ones whose key is not greater, so equal keys keep the order
    they came in (the sort is stable and compares keys with [<] only). *)
Fixpoint insert_by {A : Type} (key : A -> string) (x : A) (l : list A)
  : list A :=
  match l with
  | [] => [x]
  | y :: l' =>
      if String.ltb (key x) (key y) then x :: y :: l'
      else y :: insert_by key x l'
  end.

Definition sorted {A : Type} (key : A -> string) (l : list A) : list A :=
  fold_left (fun acc x => insert_by key x acc) l [].

Record Vocabulary : Type := {
  _C : list string;
  _R : list RelationSymbol;
  _V : list string
}.

Section Methods.
Context `{RT : Runtime}.

(** [Vocabulary(C, R, V)]. *)
Definition __init__ (C R V : pyobj) : result Vocabulary :=
  match C with
  | PyList lc =>
    match R with
    | PyList lr =>
      match V with
      | PyList lv =>
        match strs lc with
        | None =>
            Raise (TypeError "all entries in C parameter must be of type str")
        | Some cs =>
          match rels lr with
          | None =>
              Raise (TypeError
                "all entries in R parameter must be of type RelationSymbol")
          | Some rs =>
            match strs lv with
            | None =>
                Raise (TypeError
                  "all entries in V parameter must be of type str")
            | Some vs =>
              let intersection := set_and (py_set cs) (py_set vs) in
              if (0 <? length intersection)%nat then
                Raise (ValueError
                  "C and V parameters may not have a common element")
              else
                let names := map _name rs in
                if negb (length names =? length (py_set names))%nat then
                  Raise (ValueError
                    "Duplicate RelationSymbol names not permitted")
                else
                  Ok {| _C := sorted Str.lower (py_set cs);
                        _R := sorted (fun rs => Str.lower (_name rs))
                                (py_set rs);
                        _V := sorted Str.lower (py_set vs) |}
            end
          end
        end
      | _ => Raise (TypeError "V parameter must be of type list")
      end
    | _ => Raise (TypeError "R parameter must be of type list")
    end
  | _ => Raise (TypeError "C parameter must be of type list")
  end.

(** [self == other]. *)
Definition __eq__ (self other : Vocabulary) : bool :=
  let c_cond := set_eq (py_set (_C self)) (py_set (_C other)) in
  let r_cond := set_eq (py_set (_R self)) (py_set (_R other)) in
  let v_cond := set_eq (py_set (_V self)) (py_set (_V other)) in
  if c_cond && r_cond && v_cond then true else false.

Definition __ne__ (self other : Vocabulary) : bool :=
  negb (__eq__ self other).

Definition _key (self : Vocabulary)
  : list string * list RelationSymbol * list string :=
  (_C self, _R self, _V self).

Definition __hash__ (self : Vocabulary) : Z := py_hash (_key self).

End Methods.

(** What [__contains__] hands back: [self._C or item in self._V] is the
    list [self._C] when that list is not empty. *)
Inductive contained : Type :=
| AsList (l : list string)
| AsBool (b : bool).

Definition truth (r : contained) : bool :=
  match r with
  | AsList l => negb (bool_decide (l = []))
  | AsBool b => b
  end.

(** [item in l] for a list of strings: only a string equals a string. *)
Definition mem_str (item : pyobj) (l : list string) : bool :=
  match item with
  | PyStr s => mem s l
  | _ => false
  end.

Definition __contains__ (self : Vocabulary) (item : pyobj) : contained :=
  match item with
  | PyRel r => AsBool (mem r (_R self))
  | _ =>
      if truth (AsList (_C self)) then AsList (_C self)
      else AsBool (mem_str item (_V self))
  end.

(** [item in self]: the interpreter turns the method's answer into a bool. *)
Definition py_in (item : pyobj) (self : Vocabulary) : bool :=
  truth (__contains__ self item).

(** [self.add_constant(constant)]: the outcome and [self] after the call. *)
Definition add_constant (self : Vocabulary) (constant : pyobj)
  : result unit * Vocabulary :=
  match constant with
  | PyStr c =>
      let in_C := mem c (_C self) in
      let in_V := mem c (_V self) in
      if negb in_C && negb in_V then
        (Ok tt, {| _C := sorted Str.lower (_C self ++ [c]);
                   _R := _R self;
                   _V := _V self |})
      else (Raise (ValueError "duplicate symbol cannot be added"), self)
  | _ => (Raise (TypeError "constant parameter must be a string"), self)
  end.

Definition add_variable (self : Vocabulary) (variable : pyobj)
  : result unit * Vocabulary :=
  match variable with
  | PyStr v =>
      let in_C := mem v (_C self) in
      let in_V := mem v (_V self) in
      if negb in_C && negb in_V then
        (Ok tt, {| _C := _C self;
                   _R := _R self;
                   _V := sorted Str.lower (_V self ++ [v]) |})
      else (Raise (ValueError "duplicate symbol cannot be added"), self)
  | _ => (Raise (TypeError "variable parameter must be a string"), self)
  end.

(** *** The order [sorted] leaves a list in *)

Definition key_le {A : Type} (key : A -> string) (x y : A) : Prop :=
  String.leb (key x) (key y) = true.

Lemma key_le_trans {A : Type} (key : A -> string) (x y z : A) :
  key_le key x y -> key_le key y z -> key_le key x z.
Proof. unfold key_le. apply Str.leb_trans. Qed.

Lemma insert_by_Permutation {A : Type} (key : A -> string) (x : A) l :
  insert_by key x l ≡ₚ x :: l.
Proof.
  induction l as [|y l IH]; simpl; [reflexivity|].
  destruct (String.ltb (key x) (key y)); [reflexivity|].
  rewrite IH. apply Permutation_swap.
Qed.

Lemma sorted_from_Permutation {A : Type} (key : A -> string) l :
  forall acc,
    fold_left (fun acc x => insert_by key x acc) l acc ≡ₚ acc ++ l.
Proof.
  induction l as [|x l IH]; intros acc; simpl.
  - rewrite app_nil_r. reflexivity.
  - rewrite IH, insert_by_Permutation.
    rewrite (Permutation_middle acc l x). reflexivity.
Qed.

Lemma sorted_Permutation {A : Type} (key : A -> string) l :
  sorted key l ≡ₚ l.
Proof. unfold sorted. rewrite sorted_from_Permutation. reflexivity. Qed.

Lemma elem_of_sorted {A : Type} (key : A -> string) l x :
  x ∈ sorted key l <-> x ∈ l.
Proof. rewrite sorted_Permutation. reflexivity. Qed.

Lemma NoDup_sorted {A : Type} (key : A -> string) l :
  NoDup l -> NoDup (sorted key l).
Proof. rewrite sorted_Permutation. trivial. Qed.

Lemma insert_by_StronglySorted {A : Type} (key : A -> string) (x : A) l :
  StronglySorted (key_le key) l ->
  StronglySorted (key_le key) (insert_by key x l).
Proof.
  induction 1 as [|y l Hl IH Hy]; simpl.
  - repeat constructor.
  - destruct (String.ltb (key x) (key y)) eqn:Hxy.
    + apply Str.ltb_leb in Hxy.
      constructor; [constructor; assumption|].
      constructor; [exact Hxy|].
      eapply Forall_impl; [exact Hy|].
      intros z Hz. eapply key_le_trans; [exact Hxy|exact Hz].
    + apply Str.ltb_false_leb in Hxy.
      constructor; [exact IH|].
      rewrite insert_by_Permutation. constructor; assumption.
Qed.

Lemma sorted_from_StronglySorted {A : Type} (key : A -> string) l :
  forall acc,
    StronglySorted (key_le key) acc ->
    StronglySorted (key_le key)
      (fold_left (fun acc x => insert_by key x acc) l acc).
Proof.
  induction l as [|x l IH]; intros acc Hacc; simpl; [exact Hacc|].
  apply IH, insert_by_StronglySorted, Hacc.
Qed.

Lemma sorted_StronglySorted {A : Type} (key : A -> string) l :
  StronglySorted (key_le key) (sorted key l).
Proof. apply sorted_from_StronglySorted. constructor. Qed.

(** Where no two elements share a key, the sorted list depends on the
    elements only, not on the order they came in. *)
Lemma sorted_unique {A : Type} (key : A -> string) (l l' : list A) :
  (forall x y, x ∈ l -> y ∈ l -> key x = key y -> x = y) ->
  l ≡ₚ l' -> sorted key l = sorted key l'.
Proof.
  intros Hinj Hperm.
  apply (StronglySorted_unique_strong (key_le key)).
  - intros x y Hx Hy Hxy Hyx.
    apply Hinj.
    + apply elem_of_sorted in Hx. exact Hx.
    + apply elem_of_sorted in Hy. rewrite Hperm. exact Hy.
    + apply String.leb_antisym; assumption.
  - apply sorted_StronglySorted.
  - apply sorted_StronglySorted.
  - rewrite !sorted_Permutation. exact Hperm.
Qed.

(** *** Sets given by their elements *)

Lemma mem_true {A : Type} `{EqDecision A} (x : A) l :
  mem x l = true <-> x ∈ l.
Proof. unfold mem. apply bool_decide_eq_true. Qed.

Lemma mem_false {A : Type} `{EqDecision A} (x : A) l :
  mem x l = false <-> x ∉ l.
Proof. unfold mem. apply bool_decide_eq_false. Qed.

Lemma set_and_empty {A : Type} `{EqDecision A} (s t : list A) :
  (0 <? length (set_and s t))%nat = false ->
  forall x, x ∈ s -> x ∉ t.
Proof.
  intros Hlen x Hs Ht.
  apply Nat.ltb_ge in Hlen.
  assert (Hin : x ∈ set_and s t).
  { unfold set_and. apply list_elem_of_filter. split; assumption. }
  destruct (set_and s t); [inversion Hin|simpl in Hlen; lia].
Qed.

Lemma set_eq_true {A : Type} `{EqDecision A} (s t : list A) :
  set_eq s t = true <-> (forall x, x ∈ s <-> x ∈ t).
Proof.
  unfold set_eq. rewrite andb_true_iff, !forallb_forall.
  setoid_rewrite mem_true. setoid_rewrite <- list_elem_of_In.
  split.
  - intros [H1 H2] x. split; auto.
  - intros Hst. split; intros x Hx; apply Hst, Hx.
Qed.

Lemma strs_fmap (l : list string) : strs (PyStr <$> l) = Some l.
Proof.
  induction l as [|x l IH]; [reflexivity|].
  rewrite fmap_cons. simpl. rewrite IH. reflexivity.
Qed.

Lemma rels_fmap (l : list RelationSymbol) : rels (PyRel <$> l) = Some l.
Proof.
  induction l as [|x l IH]; [reflexivity|].
  rewrite fmap_cons. simpl. rewrite IH. reflexivity.
Qed.

(** *** The state a Vocabulary is kept in *)

Definition case_sorted (l : list string) : Prop :=
  StronglySorted (key_le Str.lower) l.

Record invariant (v : Vocabulary) : Prop := {
  inv_C_NoDup : NoDup (_C v);
  inv_V_NoDup : NoDup (_V v);
  inv_C_sorted : case_sorted (_C v);
  inv_V_sorted : case_sorted (_V v);
  inv_disjoint : forall x, x ∈ _C v -> x ∉ _V v
}.

Definition duplicate_symbol : exn :=
  ValueError "duplicate symbol cannot be added".

Section Reachable.
Context `{RT : Runtime}.

(** The Vocabularies a program can hold: built by the constructor, then
    changed by calls of [add_constant] and [add_variable] that return. *)
Inductive reachable : Vocabulary -> Prop :=
| reach_init C R V v :
    __init__ C R V = Ok v -> reachable v
| reach_add_constant v constant v' :
    reachable v -> add_constant v constant = (Ok tt, v') -> reachable v'
| reach_add_variable v variable v' :
    reachable v -> add_variable v variable = (Ok tt, v') -> reachable v'.

Lemma init_Ok C R V v :
  __init__ C R V = Ok v ->
  exists cs rs vs,
    C = PyList cs /\ R = PyList rs /\ V = PyList vs /\
    exists c r x,
      strs cs = Some c /\ rels rs = Some r /\ strs vs = Some x /\
      (forall s, s ∈ c -> s ∉ x) /\
      length (map _name r) = length (py_set (map _name r)) /\
      v = {| _C := sorted Str.lower (py_set c);
             _R := sorted (fun rs => Str.lower (_name rs)) (py_set r);
             _V := sorted Str.lower (py_set x) |}.
Proof.
  unfold __init__. intros H.
  destruct C as [| | | |cs]; try discriminate.
  destruct R as [| | | |rs]; try discriminate.
  destruct V as [| | | |vs]; try discriminate.
  destruct (strs cs) as [c|] eqn:Hc; try discriminate.
  destruct (rels rs) as [r|] eqn:Hr; try discriminate.
  destruct (strs vs) as [x|] eqn:Hx; try discriminate.
  destruct (0 <? _)%nat eqn:Hcap; try discriminate.
  destruct (negb _) eqn:Hdup; try discriminate.
  injection H as <-.
  exists cs, rs, vs. do 3 (split; [reflexivity|]).
  exists c, r, x. do 3 (split; [assumption|]).
  split; [|split; [|reflexivity]].
  - intros s Hs Hv.
    apply (set_and_empty _ _ Hcap s); apply py_set_elem; assumption.
  - apply negb_false_iff, Nat.eqb_eq in Hdup. exact Hdup.
Qed.

Lemma init_invariant C R V v : __init__ C R V = Ok v -> invariant v.
Proof.
  intros H. apply init_Ok in H.
  destruct H
    as (cs & rs & vs & _ & _ & _ & c & r & x & _ & _ & _ & Hd & _ & ->).
  split; simpl.
  - apply NoDup_sorted, py_set_NoDup.
  - apply NoDup_sorted, py_set_NoDup.
  - apply sorted_StronglySorted.
  - apply sorted_StronglySorted.
  - intros s. rewrite !elem_of_sorted, !py_set_elem. apply Hd.
Qed.

End Reachable.

Lemma NoDup_snoc_sorted (l : list string) (x : string) :
  NoDup l -> x ∉ l -> NoDup (sorted Str.lower (l ++ [x])).
Proof.
  intros Hl Hx. apply NoDup_sorted.
  apply NoDup_app. repeat split.
  - exact Hl.
  - intros y Hy Hyx. apply list_elem_of_singleton in Hyx. subst. auto.
  - apply NoDup_singleton.
Qed.

Lemma add_constant_Ok v constant v' :
  add_constant v constant = (Ok tt, v') ->
  exists c, constant = PyStr c /\ (c ∉ _C v) /\ (c ∉ _V v) /\
    v' = {| _C := sorted Str.lower (_C v ++ [c]);
            _R := _R v; _V := _V v |}.
Proof.
  unfold add_constant. destruct constant as [| |c| |]; try discriminate.
  destruct (mem c (_C v)) eqn:HC; simpl; try discriminate.
  destruct (mem c (_V v)) eqn:HV; simpl; try discriminate.
  intros [= <-]. apply mem_false in HC, HV. eauto.
Qed.

Lemma add_variable_Ok v variable v' :
  add_variable v variable = (Ok tt, v') ->
  exists x, variable = PyStr x /\ (x ∉ _C v) /\ (x ∉ _V v) /\
    v' = {| _C := _C v; _R := _R v;
            _V := sorted Str.lower (_V v ++ [x]) |}.
Proof.
  unfold add_variable. destruct variable as [| |x| |]; try discriminate.
  destruct (mem x (_C v)) eqn:HC; simpl; try discriminate.
  destruct (mem x (_V v)) eqn:HV; simpl; try discriminate.
  intros [= <-]. apply mem_false in HC, HV. eauto.
Qed.

Lemma add_constant_invariant v constant v' :
  invariant v -> add_constant v constant = (Ok tt, v') -> invariant v'.
Proof.
  intros [HC HV HCs HVs Hd] H.
  apply add_constant_Ok in H. destruct H as (c & _ & HnC & HnV & ->).
  split; simpl; try assumption.
  - apply NoDup_snoc_sorted; assumption.
  - apply sorted_StronglySorted.
  - intros x. rewrite elem_of_sorted, elem_of_app, list_elem_of_singleton.
    intros [Hx| ->]; auto.
Qed.

Lemma add_variable_invariant v variable v' :
  invariant v -> add_variable v variable = (Ok tt, v') -> invariant v'.
Proof.
  intros [HC HV HCs HVs Hd] H.
  apply add_variable_Ok in H. destruct H as (x & _ & HnC & HnV & ->).
  split; simpl; try assumption.
  - apply NoDup_snoc_sorted; assumption.
  - apply sorted_StronglySorted.
  - intros y Hy. rewrite elem_of_sorted, elem_of_app, list_elem_of_singleton.
    intros [Hv| ->]; [exact (Hd y Hy Hv)|auto].
Qed.

Lemma add_constant_duplicate v s :
  s ∈ _C v \/ s ∈ _V v ->
  add_constant v (PyStr s) = (Raise duplicate_symbol, v).
Proof.
  intros H. unfold add_constant.
  destruct (mem s (_C v)) eqn:HC; [reflexivity|].
  destruct (mem s (_V v)) eqn:HV; [reflexivity|].
  apply mem_false in HC, HV. tauto.
Qed.

Lemma add_variable_duplicate v s :
  s ∈ _C v \/ s ∈ _V v ->
  add_variable v (PyStr s) = (Raise duplicate_symbol, v).
Proof.
  intros H. unfold add_variable.
  destruct (mem s (_C v)) eqn:HC; [reflexivity|].
  destruct (mem s (_V v)) eqn:HV; [reflexivity|].
  apply mem_false in HC, HV. tauto.
Qed.

(** *** An interpreter to run the examples on *)

(** A hash over the key, in the multiply-and-add style of the builtin one,
    on 64 bits. *)
Definition hash_step (h x : Z) : Z := (h * 1000003 + x) mod 2 ^ 64.

Definition hash_str (s : string) : Z :=
  fold_left (fun h c => hash_step h (Z.of_nat (nat_of_ascii c)))
    (list_ascii_of_string s) 0%Z.

Definition hash_seq {A : Type} (h : A -> Z) (l : list A) : Z :=
  fold_left (fun acc x => hash_step acc (h x)) l 3430008%Z.

Definition hash_rel (r : RelationSymbol) : Z :=
  hash_step (hash_str (_name r)) (Z.of_nat (_arity r)).

Definition hash_key
    (k : list string * list RelationSymbol * list string) : Z :=
  let '(c, r, v) := k in
  hash_seq id [hash_seq hash_str c; hash_seq hash_rel r; hash_seq hash_str v].

(** Sets that hand their elements back in the order of the list they were
    built from (each at its last place), as a hash table does on the lists
    whose entries all fall into one bucket chain. *)
Global Instance insertion_order : Runtime := {|
  py_set := fun A _ l => remove_dups l;
  py_set_NoDup := fun A _ l => NoDup_remove_dups l;
  py_set_elem := fun A _ l x => elem_of_remove_dups l x;
  py_hash := hash_key
|}.

(** *** Membership *)

Lemma py_in_relation (v : Vocabulary) (r : RelationSymbol) :
  py_in (PyRel r) v = true <-> r ∈ _R v.
Proof. unfold py_in. simpl. apply mem_true. Qed.

(** X2: what [item in v] computes for an item that is no relation symbol;
    the constants are asked whether there are any, not whether the item is
    one of them. *)
Lemma py_in_symbol (v : Vocabulary) (item : pyobj) :
  (forall r, item <> PyRel r) ->
  py_in item v = true <->
  _C v <> [] \/ (exists s, item = PyStr s /\ s ∈ _V v).
Proof.
  intros Hrel. unfold py_in, __contains__.
  assert (Hstr : mem_str item (_V v) = true <->
                 exists s, item = PyStr s /\ s ∈ _V v).
  { destruct item; simpl; try (split; [discriminate|intros (s' & [=] & _)]).
    rewrite mem_true. split; [eauto|]. intros (s' & [= ->] & Hs). exact Hs. }
  destruct item as [| | |r|]; try (exfalso; exact (Hrel r eq_refl));
    simpl; destruct (_C v) as [|c cs] eqn:HC; simpl in *;
    first [ rewrite Hstr; split; [auto|intros [|]; [congruence|assumption]]
          | split; [intros _; left; discriminate|reflexivity] ].
Qed.

Lemma py_in_symbol_witness :
  py_in (PyStr "b") {| _C := ["a"]; _R := []; _V := ["x"] |} = true.
Proof.
  apply py_in_symbol; [discriminate|]. left. discriminate.
Defined.

(** C2, at the input where the code and the claim part: a Vocabulary with
    the constant a and the variable x answers true for b, which is neither.
    [__contains__] returns [self._C or item in self._V]. *)
Example contains_foreign_symbol :
  exists v,
    __init__ (PyList [PyStr "a"]) (PyList []) (PyList [PyStr "x"]) = Ok v /\
    _C v = ["a"] /\ _V v = ["x"] /\
    py_in (PyStr "b") v = true.
Proof. eexists. repeat split. Qed.

(** *** The invariant of the symbol lists *)

(** C9: after the constructor and after every call of [add_constant] or
    [add_variable] that returns, the constants and the variables are each
    free of duplicates and sorted by their lower-cased form, and no symbol
    is both; a call that is given a symbol already there raises ValueError
    and leaves the Vocabulary as it was. *)
Theorem vocabulary_invariant `{RT : Runtime} :
  (forall v, reachable v -> invariant v) /\
  (forall v s, s ∈ _C v \/ s ∈ _V v ->
     add_constant v (PyStr s) = (Raise duplicate_symbol, v) /\
     add_variable v (PyStr s) = (Raise duplicate_symbol, v)).
Proof.
  split.
  - induction 1 as [C R V v H|v c v' _ IH H|v x v' _ IH H].
    + exact (init_invariant _ _ _ _ H).
    + exact (add_constant_invariant _ _ _ IH H).
    + exact (add_variable_invariant _ _ _ IH H).
  - intros v s H. split.
    + apply add_constant_duplicate, H.
    + apply add_variable_duplicate, H.
Qed.

Lemma vocabulary_invariant_witness :
  invariant {| _C := ["a"; "B"; "c"]; _R := []; _V := ["x"; "Y"] |} /\
  add_variable {| _C := ["a"; "B"; "c"]; _R := []; _V := ["x"; "Y"] |}
    (PyStr "B")
  = (Raise duplicate_symbol,
     {| _C := ["a"; "B"; "c"]; _R := []; _V := ["x"; "Y"] |}).
Proof.
  destruct (@vocabulary_invariant insertion_order) as [Hinv Hdup].
  split.
  - apply Hinv.
    apply (reach_add_variable
             {| _C := ["a"; "B"; "c"]; _R := []; _V := ["x"] |} (PyStr "Y"));
      [|reflexivity].
    apply (reach_add_constant
             {| _C := ["a"; "c"]; _R := []; _V := ["x"] |} (PyStr "B"));
      [|reflexivity].
    apply (reach_init (PyList [PyStr "c"; PyStr "a"; PyStr "c"]) (PyList [])
             (PyList [PyStr "x"])).
    reflexivity.
  - apply Hdup. left. apply list_elem_of_In. simpl. tauto.
Defined.

(** *** Equality and hash *)

Definition same_elements {A : Type} (l l' : list A) : Prop :=
  forall x, x ∈ l <-> x ∈ l'.

(** No two symbols of the list differ in the case of their letters only. *)
Definition case_distinct {A : Type} (name : A -> string) (l : list A)
  : Prop :=
  forall x y, x ∈ l -> y ∈ l ->
    Str.lower (name x) = Str.lower (name y) -> x = y.

(** The constructor on lists of strings and of relation symbols. *)
Definition construct `{RT : Runtime}
    (C : list string) (R : list RelationSymbol) (V : list string)
  : result Vocabulary :=
  __init__ (PyList (PyStr <$> C)) (PyList (PyRel <$> R))
    (PyList (PyStr <$> V)).

Section EqHash.
Context `{RT : Runtime}.

Lemma set_eq_py_set {A : Type} `{EqDecision A} (l l' : list A) :
  set_eq (py_set l) (py_set l') = true <-> same_elements l l'.
Proof.
  rewrite set_eq_true. unfold same_elements.
  split; intros H x; specialize (H x); rewrite !py_set_elem in *; exact H.
Qed.

Lemma eq_set_based (u u' : Vocabulary) :
  __eq__ u u' = true <->
  same_elements (_C u) (_C u') /\ same_elements (_R u) (_R u') /\
  same_elements (_V u) (_V u').
Proof.
  unfold __eq__. rewrite <- !set_eq_py_set.
  destruct (set_eq (py_set (_C u)) (py_set (_C u')));
    destruct (set_eq (py_set (_R u)) (py_set (_R u')));
    destruct (set_eq (py_set (_V u)) (py_set (_V u'))); simpl;
    intuition congruence.
Qed.

Lemma construct_Ok C R V v :
  construct C R V = Ok v ->
  v = {| _C := sorted Str.lower (py_set C);
         _R := sorted (fun rs => Str.lower (_name rs)) (py_set R);
         _V := sorted Str.lower (py_set V) |}.
Proof.
  unfold construct. intros H. apply init_Ok in H.
  destruct H as (cs & rs & vs & [= <-] & [= <-] & [= <-] &
                 c & r & x & Hc & Hr & Hx & _ & _ & ->).
  rewrite strs_fmap in Hc. rewrite rels_fmap in Hr. rewrite strs_fmap in Hx.
  congruence.
Qed.

Lemma py_set_Permutation {A : Type} `{EqDecision A} (l l' : list A) :
  same_elements l l' -> py_set l ≡ₚ py_set l'.
Proof.
  intros H. apply NoDup_Permutation; try apply py_set_NoDup.
  intros x. rewrite !py_set_elem. apply H.
Qed.

Lemma sorted_py_set {A : Type} `{EqDecision A} (name : A -> string) l l' :
  same_elements l l' -> case_distinct name l ->
  sorted (fun x => Str.lower (name x)) (py_set l)
  = sorted (fun x => Str.lower (name x)) (py_set l').
Proof.
  intros Hsame Hcase. apply sorted_unique.
  - intros x y Hx Hy. apply Hcase; apply py_set_elem; assumption.
  - apply py_set_Permutation, Hsame.
Qed.

End EqHash.

(** C10, as the code has it: two triples of lists with the same elements
    in each place, both accepted by the constructor, give Vocabularies that
    compare equal; equality looks at the three sets of symbols only; and
    where no two symbols of a list differ in case alone the two have the
    same key, hence the same hash. *)
Theorem vocabulary_eq_hash `{RT : Runtime}
    (C C' : list string) (R R' : list RelationSymbol) (V V' : list string)
    (v v' : Vocabulary) :
  same_elements C C' -> same_elements R R' -> same_elements V V' ->
  construct C R V = Ok v -> construct C' R' V' = Ok v' ->
  __eq__ v v' = true /\
  (forall u u', __eq__ u u' = true <->
     same_elements (_C u) (_C u') /\ same_elements (_R u) (_R u') /\
     same_elements (_V u) (_V u')) /\
  (case_distinct id C -> case_distinct _name R -> case_distinct id V ->
   _key v = _key v' /\ __hash__ v = __hash__ v').
Proof.
  intros HC HR HV Hv Hv'.
  apply construct_Ok in Hv, Hv'. subst v v'.
  split; [|split].
  - apply eq_set_based. simpl.
    split; [|split]; intros x; rewrite !elem_of_sorted, !py_set_elem;
      [apply HC|apply HR|apply HV].
  - apply eq_set_based.
  - intros HdC HdR HdV.
    assert (Hkey : forall A B D (a a' : A) (b b' : B) (d d' : D),
               a = a' -> b = b' -> d = d' -> (a, b, d) = (a', b', d'))
      by (intros; subst; reflexivity).
    assert (E : _key
                  {| _C := sorted Str.lower (py_set C);
                     _R := sorted (fun rs => Str.lower (_name rs)) (py_set R);
                     _V := sorted Str.lower (py_set V) |}
                = _key
                  {| _C := sorted Str.lower (py_set C');
                     _R := sorted (fun rs => Str.lower (_name rs))
                             (py_set R');
                     _V := sorted Str.lower (py_set V') |}).
    { unfold _key; simpl. apply Hkey.
      - apply (sorted_py_set id); assumption.
      - apply (sorted_py_set _name); assumption.
      - apply (sorted_py_set id); assumption. }
    split; [exact E|]. unfold __hash__. rewrite E. reflexivity.
Qed.

Definition P1 : RelationSymbol := {| _name := "P"; _arity := 1 |}.
Definition Q2 : RelationSymbol := {| _name := "Q"; _arity := 2 |}.

Lemma case_distinct_compute {A : Type} `{EqDecision A}
    (name : A -> string) (l : list A) :
  forallb (fun x => forallb (fun y =>
      implb (bool_decide (Str.lower (name x) = Str.lower (name y)))
            (bool_decide (x = y))) l) l = true ->
  case_distinct name l.
Proof.
  rewrite forallb_forall. intros H x y Hx Hy Hxy.
  apply list_elem_of_In in Hx, Hy.
  specialize (H x Hx). rewrite forallb_forall in H. specialize (H y Hy).
  rewrite (bool_decide_eq_true_2 _ Hxy) in H. simpl in H.
  apply bool_decide_eq_true in H. exact H.
Qed.

Lemma same_elements_compute {A : Type} `{EqDecision A} (l l' : list A) :
  set_eq l l' = true -> same_elements l l'.
Proof. exact (proj1 (set_eq_true l l')). Qed.

Lemma vocabulary_eq_hash_witness :
  exists v v',
    construct ["b"; "A"; "b"] [Q2; P1] ["y"; "X"] = Ok v /\
    construct ["A"; "b"] [P1; Q2] ["X"; "y"; "X"] = Ok v' /\
    __eq__ v v' = true /\ __hash__ v = __hash__ v'.
Proof.
  eexists. eexists.
  split; [reflexivity|]. split; [reflexivity|].
  assert (HC : same_elements ["b"; "A"; "b"] ["A"; "b"])
    by (apply same_elements_compute; reflexivity).
  assert (HR : same_elements [Q2; P1] [P1; Q2])
    by (apply same_elements_compute; reflexivity).
  assert (HV : same_elements ["y"; "X"] ["X"; "y"; "X"])
    by (apply same_elements_compute; reflexivity).
  destruct (@vocabulary_eq_hash insertion_order _ _ _ _ _ _ _ _
              HC HR HV eq_refl eq_refl) as (Heq & _ & Hhash).
  split; [exact Heq|].
  apply Hhash; apply case_distinct_compute; reflexivity.
Defined.

(** C10 fails as stated.  A list that repeats a relation symbol has the
    same elements as the list that names it once, yet the constructor
    refuses it; and the constants a, A given in the two orders make two
    Vocabularies that compare equal and whose keys, which the hash is
    computed from, differ, since [sorted] keeps symbols with one lower-cased
    form in the order the set handed them over. *)
Lemma vocabulary_eq_hash_counterexample :
  (same_elements [P1] [P1; P1] /\
   construct [] [P1] [] = Ok {| _C := []; _R := [P1]; _V := [] |} /\
   construct [] [P1; P1] []
   = Raise (ValueError "Duplicate RelationSymbol names not permitted")) /\
  (same_elements ["a"; "A"] ["A"; "a"] /\
   exists v v',
     construct ["a"; "A"] [] [] = Ok v /\
     construct ["A"; "a"] [] [] = Ok v' /\
     __eq__ v v' = true /\ _key v <> _key v' /\ __hash__ v <> __hash__ v').
Proof.
  split.
  - split; [apply same_elements_compute; reflexivity|].
    split; reflexivity.
  - split; [apply same_elements_compute; reflexivity|].
    eexists. eexists.
    split; [reflexivity|]. split; [reflexivity|].
    split; [reflexivity|]. split; [discriminate|].
    vm_compute. discriminate.
Qed.

(** *** What the constructor accepts and what it refuses *)

Lemma elem_of_strs (l : list pyobj) :
  forall c s, strs l = Some c -> s ∈ c <-> PyStr s ∈ l.
Proof.
  induction l as [|o l IH]; intros c s H; simpl in H.
  - injection H as <-. split; intros Hs; inversion Hs.
  - destruct o as [| |s'| |]; try discriminate.
    destruct (strs l) as [c'|]; try discriminate.
    injection H as <-. rewrite !elem_of_cons, (IH c' s eq_refl).
    split; (intros [Hs|Hs]; [left; congruence|right; exact Hs]).
Qed.

Lemma elem_of_rels (l : list pyobj) :
  forall c r, rels l = Some c -> r ∈ c <-> PyRel r ∈ l.
Proof.
  induction l as [|o l IH]; intros c s H; simpl in H.
  - injection H as <-. split; intros Hs; inversion Hs.
  - destruct o as [| | |r'|]; try discriminate.
    destruct (rels l) as [c'|]; try discriminate.
    injection H as <-. rewrite !elem_of_cons, (IH c' s eq_refl).
    split; (intros [Hs|Hs]; [left; congruence|right; exact Hs]).
Qed.

Lemma set_and_nonempty {A : Type} `{EqDecision A} (s t : list A) :
  (0 <? length (set_and s t))%nat = true <-> exists x, x ∈ s /\ x ∈ t.
Proof.
  rewrite Nat.ltb_lt. unfold set_and. split.
  - destruct (filter _ s) as [|x l] eqn:Hf; simpl; [lia|]. intros _.
    assert (Hx : x ∈ filter (fun x => x ∈ t) s) by (rewrite Hf; left).
    apply list_elem_of_filter in Hx. exists x. tauto.
  - intros (x & Hs & Ht).
    assert (Hx : x ∈ filter (fun x => x ∈ t) s)
      by (apply list_elem_of_filter; tauto).
    destruct (filter _ s); [inversion Hx|simpl; lia].
Qed.

Lemma map_fmap {A B : Type} (f : A -> B) (l : list A) : map f l = f <$> l.
Proof. reflexivity. Qed.

Section Constructor.
Context `{RT : Runtime}.

Lemma py_set_length {A : Type} `{EqDecision A} (l : list A) :
  length l = length (py_set l) <-> NoDup l.
Proof.
  split.
  - intros Hlen. apply NoDup_ListNoDup.
    apply (@List.NoDup_incl_NoDup _ (py_set l) l).
    + apply NoDup_ListNoDup, py_set_NoDup.
    + lia.
    + intros x Hx. apply list_elem_of_In, py_set_elem, list_elem_of_In, Hx.
  - intros Hl. apply Permutation_length. symmetry.
    apply NoDup_Permutation; [apply py_set_NoDup|exact Hl|apply py_set_elem].
Qed.

Lemma py_set_self {A : Type} `{EqDecision A} (l : list A) :
  NoDup l -> py_set l ≡ₚ l.
Proof.
  intros Hl.
  apply NoDup_Permutation; [apply py_set_NoDup|exact Hl|apply py_set_elem].
Qed.

Definition common_element : exn :=
  ValueError "C and V parameters may not have a common element".

Definition duplicate_names : exn :=
  ValueError "Duplicate RelationSymbol names not permitted".

Lemma init_common (cs rs vs : list pyobj) c r x :
  strs cs = Some c -> rels rs = Some r -> strs vs = Some x ->
  (exists s, s ∈ c /\ s ∈ x) ->
  __init__ (PyList cs) (PyList rs) (PyList vs) = Raise common_element.
Proof.
  intros Hc Hr Hx (s & H1 & H2). unfold __init__. rewrite Hc, Hr, Hx.
  assert (Hcap : (0 <? length (set_and (py_set c) (py_set x)))%nat = true).
  { apply set_and_nonempty. exists s. rewrite !py_set_elem. tauto. }
  rewrite Hcap. reflexivity.
Qed.

Lemma init_disjoint (cs rs vs : list pyobj) c r x :
  strs cs = Some c -> rels rs = Some r -> strs vs = Some x ->
  (forall s, s ∈ c -> s ∉ x) ->
  __init__ (PyList cs) (PyList rs) (PyList vs)
  = if bool_decide (NoDup (map _name r)) then
      Ok {| _C := sorted Str.lower (py_set c);
            _R := sorted (fun rs => Str.lower (_name rs)) (py_set r);
            _V := sorted Str.lower (py_set x) |}
    else Raise duplicate_names.
Proof.
  intros Hc Hr Hx Hd. unfold __init__. rewrite Hc, Hr, Hx.
  destruct (0 <? _)%nat eqn:Hcap.
  - apply set_and_nonempty in Hcap. destruct Hcap as (s & H1 & H2).
    rewrite py_set_elem in H1, H2. destruct (Hd s H1 H2).
  - destruct (negb _) eqn:Hdup.
    + rewrite bool_decide_eq_false_2; [reflexivity|].
      intros Hn. apply py_set_length in Hn.
      apply negb_true_iff, Nat.eqb_neq in Hdup. auto.
    + rewrite bool_decide_eq_true_2; [reflexivity|].
      apply negb_false_iff, Nat.eqb_eq in Hdup.
      apply py_set_length, Hdup.
Qed.

(** X3: the constructor returns exactly when the three arguments are lists
    of strings, of relation symbols and of strings, no string is in both C
    and V, and no two entries of R have the same name (so R cannot repeat
    a symbol); the object then holds the entries of the three lists, each
    once. *)
Theorem constructor_accepts (C R V : pyobj) :
  (forall v, __init__ C R V = Ok v ->
     exists cs rs vs c r x,
       C = PyList cs /\ R = PyList rs /\ V = PyList vs /\
       strs cs = Some c /\ rels rs = Some r /\ strs vs = Some x /\
       (forall s, s ∈ c -> s ∉ x) /\ NoDup (map _name r) /\
       (forall s, s ∈ _C v <-> PyStr s ∈ cs) /\
       (forall s, s ∈ _R v <-> PyRel s ∈ rs) /\
       (forall s, s ∈ _V v <-> PyStr s ∈ vs) /\
       NoDup (_C v) /\ NoDup (_R v) /\ NoDup (_V v)) /\
  (forall cs rs vs c r x,
     C = PyList cs -> R = PyList rs -> V = PyList vs ->
     strs cs = Some c -> rels rs = Some r -> strs vs = Some x ->
     (forall s, s ∈ c -> s ∉ x) -> NoDup (map _name r) ->
     exists v, __init__ C R V = Ok v).
Proof.
  split.
  - intros v H. apply init_Ok in H.
    destruct H as (cs & rs & vs & -> & -> & -> &
                   c & r & x & Hc & Hr & Hx & Hd & Hn & ->).
    exists cs, rs, vs, c, r, x. simpl.
    do 6 (split; [first [reflexivity|assumption]|]).
    split; [exact Hd|]. split; [apply py_set_length, Hn|].
    split; [|split; [|split; [|split; [|split]]]].
    + intros s. rewrite elem_of_sorted, py_set_elem.
      apply elem_of_strs, Hc.
    + intros s. rewrite elem_of_sorted, py_set_elem.
      apply elem_of_rels, Hr.
    + intros s. rewrite elem_of_sorted, py_set_elem.
      apply elem_of_strs, Hx.
    + apply NoDup_sorted, py_set_NoDup.
    + apply NoDup_sorted, py_set_NoDup.
    + apply NoDup_sorted, py_set_NoDup.
  - intros cs rs vs c r x -> -> -> Hc Hr Hx Hd Hn.
    rewrite (init_disjoint _ _ _ _ _ _ Hc Hr Hx Hd).
    rewrite (bool_decide_eq_true_2 _ Hn). eauto.
Qed.

Definition is_list (x : pyobj) : bool :=
  match x with PyList _ => true | _ => false end.

(** X4: what the constructor raises, in the order of its checks: the kind
    of C, of R, of V; the entries of C, of R, of V; a string in both C and
    V; two entries of R with one name. *)
Theorem constructor_errors (C R V : pyobj) :
  (is_list C = false ->
   __init__ C R V = Raise (TypeError "C parameter must be of type list")) /\
  (is_list C = true -> is_list R = false ->
   __init__ C R V = Raise (TypeError "R parameter must be of type list")) /\
  (is_list C = true -> is_list R = true -> is_list V = false ->
   __init__ C R V = Raise (TypeError "V parameter must be of type list")) /\
  (forall cs rs vs, C = PyList cs -> R = PyList rs -> V = PyList vs ->
     (strs cs = None ->
      __init__ C R V
      = Raise (TypeError "all entries in C parameter must be of type str")) /\
     (forall c, strs cs = Some c -> rels rs = None ->
      __init__ C R V
      = Raise (TypeError
          "all entries in R parameter must be of type RelationSymbol")) /\
     (forall c r, strs cs = Some c -> rels rs = Some r -> strs vs = None ->
      __init__ C R V
      = Raise (TypeError "all entries in V parameter must be of type str")) /\
     (forall c r x,
        strs cs = Some c -> rels rs = Some r -> strs vs = Some x ->
        ((exists s, s ∈ c /\ s ∈ x) ->
         __init__ C R V = Raise common_element) /\
        ((forall s, s ∈ c -> s ∉ x) -> ~ NoDup (map _name r) ->
         __init__ C R V = Raise duplicate_names))).
Proof.
  split; [|split; [|split]].
  - destruct C; simpl; intros; try discriminate; reflexivity.
  - destruct C; simpl; try discriminate.
    destruct R; simpl; intros; try discriminate; reflexivity.
  - destruct C; simpl; try discriminate.
    destruct R; simpl; try discriminate.
    destruct V; simpl; intros; try discriminate; reflexivity.
  - intros cs rs vs -> -> ->. split; [|split; [|split]].
    + intros Hc. simpl. rewrite Hc. reflexivity.
    + intros c Hc Hr. simpl. rewrite Hc, Hr. reflexivity.
    + intros c r Hc Hr Hx. simpl. rewrite Hc, Hr, Hx. reflexivity.
    + intros c r x Hc Hr Hx. split.
      * intros Hex. apply (init_common _ _ _ _ _ _ Hc Hr Hx Hex).
      * intros Hd Hn. rewrite (init_disjoint _ _ _ _ _ _ Hc Hr Hx Hd).
        rewrite (bool_decide_eq_false_2 _ Hn). reflexivity.
Qed.

End Constructor.

(** *** Equality *)

(** X5: [==] on Vocabularies is an equivalence relation, and [!=] is its
    negation. *)
Theorem eq_equivalence `{RT : Runtime} :
  (forall u, __eq__ u u = true) /\
  (forall u v, __eq__ u v = __eq__ v u) /\
  (forall u v w, __eq__ u v = true -> __eq__ v w = true ->
     __eq__ u w = true) /\
  (forall u v, __ne__ u v = true <-> __eq__ u v = false).
Proof.
  split; [|split; [|split]].
  - intros u. apply eq_set_based. unfold same_elements. tauto.
  - assert (Hsym : forall u v, __eq__ u v = true -> __eq__ v u = true).
    { intros u v H. apply eq_set_based in H. apply eq_set_based.
      unfold same_elements in *. destruct H as (H1 & H2 & H3).
      split; [|split]; intros x; symmetry; auto. }
    intros u v. destruct (__eq__ u v) eqn:Huv.
    + symmetry. apply Hsym, Huv.
    + destruct (__eq__ v u) eqn:Hvu; [|reflexivity].
      apply Hsym in Hvu. congruence.
  - intros u v w Huv Hvw. apply eq_set_based in Huv, Hvw.
    apply eq_set_based. unfold same_elements in *.
    destruct Huv as (H1 & H2 & H3), Hvw as (H4 & H5 & H6).
    split; [|split]; intros x; etransitivity; eauto.
  - intros u v. unfold __ne__. apply negb_true_iff.
Qed.

(** *** Copies *)

(** [copy.deepcopy(self)]: the constructor, run on copies of the three
    lists; the copy of a list of strings holds the same strings in the same
    order, and the copy of a relation symbol is a symbol equal to it. *)
Definition __deepcopy__ `{RT : Runtime} (self : Vocabulary)
  : result Vocabulary :=
  __init__ (PyList (PyStr <$> _C self)) (PyList (PyRel <$> _R self))
    (PyList (PyStr <$> _V self)).

(** The relation symbols of a Vocabulary: no two have one name, and they
    are sorted by their lower-cased names. *)
Record invariant_R (v : Vocabulary) : Prop := {
  inv_R_names : NoDup (map _name (_R v));
  inv_R_sorted :
    StronglySorted (key_le (fun rs => Str.lower (_name rs))) (_R v)
}.

Section Copies.
Context `{RT : Runtime}.

Lemma reachable_R (v : Vocabulary) : reachable v -> invariant_R v.
Proof.
  induction 1 as [C R V v H|v c v' _ IH H|v x v' _ IH H].
  - apply init_Ok in H.
    destruct H
      as (cs & rs & vs & _ & _ & _ & c & r & x & _ & _ & _ & _ & Hn & ->).
    apply py_set_length in Hn. split; simpl.
    + rewrite map_fmap in *.
      rewrite sorted_Permutation, (py_set_self r); [exact Hn|].
      apply NoDup_fmap_1 in Hn. exact Hn.
    + apply sorted_StronglySorted.
  - apply add_constant_Ok in H. destruct H as (? & _ & _ & _ & ->).
    destruct IH. split; assumption.
  - apply add_variable_Ok in H. destruct H as (? & _ & _ & _ & ->).
    destruct IH. split; assumption.
Qed.

Lemma reachable_invariant (v : Vocabulary) : reachable v -> invariant v.
Proof.
  induction 1 as [C R V v H|v c v' _ IH H|v x v' _ IH H].
  - exact (init_invariant _ _ _ _ H).
  - exact (add_constant_invariant _ _ _ IH H).
  - exact (add_variable_invariant _ _ _ IH H).
Qed.

(** A list that is sorted on a key and has no two elements with one key
    comes back from [sorted(list(set(l)), key=...)] as it is. *)
Lemma sorted_py_set_self {A : Type} `{EqDecision A} (name : A -> string) l :
  NoDup l -> case_distinct name l ->
  StronglySorted (key_le (fun x => Str.lower (name x))) l ->
  sorted (fun x => Str.lower (name x)) (py_set l) = l.
Proof.
  intros Hl Hcase Hs.
  apply (StronglySorted_unique_strong
           (key_le (fun x => Str.lower (name x)))).
  - intros x y Hx Hy Hxy Hyx. apply Hcase.
    + rewrite elem_of_sorted, py_set_elem in Hx. exact Hx.
    + exact Hy.
    + apply String.leb_antisym; assumption.
  - apply sorted_StronglySorted.
  - exact Hs.
  - rewrite sorted_Permutation. apply py_set_self, Hl.
Qed.

Lemma deepcopy_Ok (v : Vocabulary) :
  invariant v -> invariant_R v ->
  __deepcopy__ v
  = Ok {| _C := sorted Str.lower (py_set (_C v));
          _R := sorted (fun rs => Str.lower (_name rs)) (py_set (_R v));
          _V := sorted Str.lower (py_set (_V v)) |}.
Proof.
  intros [_ _ _ _ Hd] [Hn _]. unfold __deepcopy__.
  rewrite (init_disjoint _ _ _ _ _ _
             (strs_fmap _) (rels_fmap _) (strs_fmap _) Hd).
  rewrite (bool_decide_eq_true_2 _ Hn). reflexivity.
Qed.

End Copies.

(** X6: a Vocabulary made by the constructor and by calls of
    [add_constant] and [add_variable] that returned can be deep-copied: the
    copy is made without an exception and compares equal to the original;
    where no two symbols of a list differ in case alone the copy has the
    same three lists, hence the same hash. *)
Theorem deepcopy_reachable `{RT : Runtime} (v : Vocabulary) :
  reachable v ->
  exists v',
    __deepcopy__ v = Ok v' /\ __eq__ v v' = true /\
    (case_distinct id (_C v) -> case_distinct _name (_R v) ->
     case_distinct id (_V v) -> v' = v /\ __hash__ v' = __hash__ v).
Proof.
  intros Hv.
  pose proof (reachable_invariant v Hv) as Hinv.
  pose proof (reachable_R v Hv) as HinvR.
  eexists. split; [apply deepcopy_Ok; assumption|]. split.
  - apply eq_set_based. simpl.
    split; [|split]; intros x; rewrite elem_of_sorted, py_set_elem;
      reflexivity.
  - intros HC HR HV.
    destruct Hinv as [HCn HVn HCs HVs _], HinvR as [HRn HRs].
    assert (E : {| _C := sorted Str.lower (py_set (_C v));
                   _R := sorted (fun rs => Str.lower (_name rs))
                           (py_set (_R v));
                   _V := sorted Str.lower (py_set (_V v)) |} = v).
    { destruct v as [c r x]; simpl in *. f_equal.
      - apply (sorted_py_set_self id); assumption.
      - apply (sorted_py_set_self _name); try assumption.
        rewrite map_fmap in HRn. apply NoDup_fmap_1 in HRn. exact HRn.
      - apply (sorted_py_set_self id); assumption. }
    rewrite E. split; reflexivity.
Qed.

Lemma deepcopy_reachable_witness :
  exists v',
    __deepcopy__ {| _C := ["a"; "B"]; _R := [P1]; _V := ["x"] |} = Ok v' /\
    __eq__ {| _C := ["a"; "B"]; _R := [P1]; _V := ["x"] |} v' = true.
Proof.
  destruct (@deepcopy_reachable insertion_order
              {| _C := ["a"; "B"]; _R := [P1]; _V := ["x"] |})
    as (v' & Hcopy & Heq & _).
  - apply (reach_add_constant
             {| _C := ["a"]; _R := [P1]; _V := ["x"] |} (PyStr "B"));
      [|reflexivity].
    apply (reach_init (PyList [PyStr "a"]) (PyList [PyRel P1])
             (PyList [PyStr "x"])).
    reflexivity.
  - exists v'. split; assumption.
Defined.

(** *** Adding symbols *)

(** X7: what a call of [add_constant] or [add_variable] does.  Given
    anything but a string it raises TypeError and changes nothing.  When it
    returns, the symbol has joined its list, which is one longer and holds
    the symbols it held before; the two other lists are as they were; the
    symbol is found by [in]; and it can be added neither as a constant nor
    as a variable again. *)
Theorem add_symbol_effect (v : Vocabulary) :
  (forall o, (forall s, o <> PyStr s) ->
     add_constant v o
     = (Raise (TypeError "constant parameter must be a string"), v) /\
     add_variable v o
     = (Raise (TypeError "variable parameter must be a string"), v)) /\
  (forall c v', add_constant v (PyStr c) = (Ok tt, v') ->
     (forall s, s ∈ _C v' <-> s ∈ _C v \/ s = c) /\
     length (_C v') = S (length (_C v)) /\
     _R v' = _R v /\ _V v' = _V v /\
     py_in (PyStr c) v' = true /\
     add_constant v' (PyStr c) = (Raise duplicate_symbol, v') /\
     add_variable v' (PyStr c) = (Raise duplicate_symbol, v')) /\
  (forall x v', add_variable v (PyStr x) = (Ok tt, v') ->
     (forall s, s ∈ _V v' <-> s ∈ _V v \/ s = x) /\
     length (_V v') = S (length (_V v)) /\
     _R v' = _R v /\ _C v' = _C v /\
     py_in (PyStr x) v' = true /\
     add_constant v' (PyStr x) = (Raise duplicate_symbol, v') /\
     add_variable v' (PyStr x) = (Raise duplicate_symbol, v')).
Proof.
  split; [|split].
  - intros o Ho. destruct o as [| |s| |]; try (split; reflexivity).
    destruct (Ho s eq_refl).
  - intros c v' H. apply add_constant_Ok in H.
    destruct H as (c' & [= <-] & HnC & HnV & ->).
    assert (Hin : c ∈ sorted Str.lower (_C v ++ [c])).
    { rewrite elem_of_sorted, elem_of_app, list_elem_of_singleton. auto. }
    split; [|split; [|split; [|split; [|split; [|split]]]]];
      try reflexivity.
    + intros s. simpl.
      rewrite elem_of_sorted, elem_of_app, list_elem_of_singleton.
      reflexivity.
    + simpl. rewrite (Permutation_length (sorted_Permutation _ _)), length_app.
      simpl. lia.
    + unfold py_in, __contains__. simpl.
      destruct (sorted Str.lower (_C v ++ [c])); [inversion Hin|reflexivity].
    + apply add_constant_duplicate. left. exact Hin.
    + apply add_variable_duplicate. left. exact Hin.
  - intros x v' H. apply add_variable_Ok in H.
    destruct H as (x' & [= <-] & HnC & HnV & ->).
    assert (Hin : x ∈ sorted Str.lower (_V v ++ [x])).
    { rewrite elem_of_sorted, elem_of_app, list_elem_of_singleton. auto. }
    split; [|split; [|split; [|split; [|split; [|split]]]]];
      try reflexivity.
    + intros s. simpl.
      rewrite elem_of_sorted, elem_of_app, list_elem_of_singleton.
      reflexivity.
    + simpl. rewrite (Permutation_length (sorted_Permutation _ _)), length_app.
      simpl. lia.
    + unfold py_in, __contains__. simpl.
      destruct (_C v); simpl; [apply mem_true, Hin|reflexivity].
    + apply add_constant_duplicate. right. exact Hin.
    + apply add_variable_duplicate. right. exact Hin.
Qed.

(** *** Sorting a list that grows at its end *)

Lemma ltb_irrefl (s : string) : String.ltb s s = false.
Proof. unfold String.ltb. rewrite Str.compare_refl. reflexivity. Qed.

Lemma ltb_trans (s1 s2 s3 : string) :
  String.ltb s1 s2 = true -> String.ltb s2 s3 = true ->
  String.ltb s1 s3 = true.
Proof.
  unfold String.ltb. intros H1 H2.
  destruct (String.compare s1 s2) eqn:E1; try discriminate.
  destruct (String.compare s2 s3) eqn:E2; try discriminate.
  rewrite (Str.compare_lt_trans _ _ _ E1 E2). reflexivity.
Qed.

Lemma ltb_total (s1 s2 : string) :
  s1 <> s2 -> String.ltb s1 s2 = false -> String.ltb s2 s1 = true.
Proof.
  unfold String.ltb. intros Hne H. rewrite String.compare_antisym.
  destruct (String.compare s1 s2) eqn:E; try discriminate; simpl.
  - apply String.compare_eq_iff in E. contradiction.
  - reflexivity.
Qed.

Lemma ltb_asym (s1 s2 : string) :
  String.ltb s1 s2 = true -> String.ltb s2 s1 = false.
Proof.
  unfold String.ltb. intros H. rewrite String.compare_antisym.
  destruct (String.compare s1 s2); try discriminate. reflexivity.
Qed.

Lemma sorted_snoc {A : Type} (key : A -> string) (l : list A) (x : A) :
  sorted key (l ++ [x]) = insert_by key x (sorted key l).
Proof. unfold sorted. rewrite fold_left_app. reflexivity. Qed.

Lemma insert_by_last {A : Type} (key : A -> string) (x : A) (l : list A) :
  Forall (fun y => key_le key y x) l -> insert_by key x l = l ++ [x].
Proof.
  induction 1 as [|y l Hy _ IH]; simpl; [reflexivity|].
  unfold key_le, String.leb in Hy. unfold String.ltb.
  rewrite String.compare_antisym.
  destruct (String.compare (key y) (key x)); try discriminate; simpl;
    rewrite IH; reflexivity.
Qed.

Lemma sorted_from_sorted {A : Type} (key : A -> string) (l : list A) :
  forall acc,
    StronglySorted (key_le key) (acc ++ l) ->
    fold_left (fun acc x => insert_by key x acc) l acc = acc ++ l.
Proof.
  induction l as [|x l IH]; intros acc Hs; simpl.
  - rewrite app_nil_r. reflexivity.
  - assert (Hacc : Forall (fun y => key_le key y x) acc).
    { clear IH. induction acc as [|y acc IHacc]; [constructor|].
      simpl in Hs. apply StronglySorted_inv in Hs. destruct Hs as [Hs Hy].
      constructor; [|apply IHacc, Hs].
      rewrite Forall_app, Forall_cons in Hy. tauto. }
    rewrite (insert_by_last _ _ _ Hacc).
    rewrite IH; rewrite <- app_assoc; [reflexivity|exact Hs].
Qed.

(** [sorted] leaves a list that is sorted on the key as it is. *)
Lemma sorted_sorted {A : Type} (key : A -> string) (l : list A) :
  StronglySorted (key_le key) l -> sorted key l = l.
Proof. intros Hs. apply (sorted_from_sorted key l []). exact Hs. Qed.

(** Two elements with different keys go to their places in either order. *)
Lemma insert_by_comm {A : Type} (key : A -> string) (a b : A) (l : list A) :
  key a <> key b ->
  insert_by key a (insert_by key b l) = insert_by key b (insert_by key a l).
Proof.
  intros Hab.
  assert (Hba : key b <> key a) by congruence.
  induction l as [|y l IH]; simpl.
  - destruct (String.ltb (key a) (key b)) eqn:E1.
    + rewrite (ltb_asym _ _ E1). reflexivity.
    + rewrite (ltb_total _ _ Hab E1). reflexivity.
  - destruct (String.ltb (key b) (key y)) eqn:Eb;
      destruct (String.ltb (key a) (key y)) eqn:Ea; simpl;
      rewrite ?Ea, ?Eb.
    + destruct (String.ltb (key a) (key b)) eqn:E1.
      * rewrite (ltb_asym _ _ E1). simpl. rewrite ?Eb. reflexivity.
      * rewrite (ltb_total _ _ Hab E1). simpl. rewrite ?Ea. reflexivity.
    + destruct (String.ltb (key a) (key b)) eqn:E1.
      * rewrite (ltb_trans _ _ _ E1 Eb) in Ea. discriminate.
      * simpl. rewrite ?Ea. reflexivity.
    + destruct (String.ltb (key b) (key a)) eqn:E1.
      * rewrite (ltb_trans _ _ _ E1 Ea) in Eb. discriminate.
      * simpl. rewrite ?Eb. reflexivity.
    + rewrite IH. reflexivity.
Qed.

(** Adding two symbols to a sorted list one after the other. *)
Lemma sorted_snoc_snoc {A : Type} (key : A -> string) (l : list A) (a b : A) :
  sorted key (sorted key (l ++ [a]) ++ [b])
  = insert_by key b (insert_by key a (sorted key l)).
Proof.
  rewrite sorted_snoc, (sorted_sorted key (sorted key (l ++ [a]))).
  - rewrite sorted_snoc. reflexivity.
  - apply sorted_StronglySorted.
Qed.

Lemma add_constant_fresh (v : Vocabulary) (c : string) :
  c ∉ _C v -> c ∉ _V v ->
  add_constant v (PyStr c)
  = (Ok tt, {| _C := sorted Str.lower (_C v ++ [c]);
               _R := _R v; _V := _V v |}).
Proof.
  intros HC HV. unfold add_constant.
  apply mem_false in HC, HV. rewrite HC, HV. reflexivity.
Qed.

Lemma add_variable_fresh (v : Vocabulary) (x : string) :
  x ∉ _C v -> x ∉ _V v ->
  add_variable v (PyStr x)
  = (Ok tt, {| _C := _C v; _R := _R v;
               _V := sorted Str.lower (_V v ++ [x]) |}).
Proof.
  intros HC HV. unfold add_variable.
  apply mem_false in HC, HV. rewrite HC, HV. reflexivity.
Qed.

Lemma not_elem_of_snoc_sorted (l : list string) (a b : string) :
  b ∉ l -> a <> b -> b ∉ sorted Str.lower (l ++ [a]).
Proof.
  intros Hl Hab. rewrite elem_of_sorted, elem_of_app, list_elem_of_singleton.
  intros [H|H]; [exact (Hl H)|congruence].
Qed.

(** X9: symbols that are new to a Vocabulary can be added in either
    order.  Two constants, or two variables, whose lower-cased forms differ
    leave the same lists behind whichever is added first; a constant and a
    variable that differ do so too. *)
Theorem add_order (v : Vocabulary) (a b : string) :
  a ∉ _C v -> a ∉ _V v -> b ∉ _C v -> b ∉ _V v -> a <> b ->
  (Str.lower a <> Str.lower b ->
   (exists va vb vab,
      add_constant v (PyStr a) = (Ok tt, va) /\
      add_constant va (PyStr b) = (Ok tt, vab) /\
      add_constant v (PyStr b) = (Ok tt, vb) /\
      add_constant vb (PyStr a) = (Ok tt, vab)) /\
   (exists va vb vab,
      add_variable v (PyStr a) = (Ok tt, va) /\
      add_variable va (PyStr b) = (Ok tt, vab) /\
      add_variable v (PyStr b) = (Ok tt, vb) /\
      add_variable vb (PyStr a) = (Ok tt, vab))) /\
  (exists va vb vab,
     add_constant v (PyStr a) = (Ok tt, va) /\
     add_variable va (PyStr b) = (Ok tt, vab) /\
     add_variable v (PyStr b) = (Ok tt, vb) /\
     add_constant vb (PyStr a) = (Ok tt, vab)).
Proof.
  intros HaC HaV HbC HbV Hab.
  assert (Hba : b <> a) by congruence.
  split; [intros Hkey; split|].
  - do 3 eexists.
    split; [apply add_constant_fresh; assumption|].
    split; [apply add_constant_fresh; simpl;
            [apply not_elem_of_snoc_sorted|]; assumption|].
    split; [apply add_constant_fresh; assumption|].
    rewrite add_constant_fresh; simpl;
      [|apply not_elem_of_snoc_sorted; assumption|assumption].
    rewrite !sorted_snoc_snoc.
    rewrite (insert_by_comm Str.lower a b); [reflexivity|exact Hkey].
  - do 3 eexists.
    split; [apply add_variable_fresh; assumption|].
    split; [apply add_variable_fresh; simpl;
            [|apply not_elem_of_snoc_sorted]; assumption|].
    split; [apply add_variable_fresh; assumption|].
    rewrite add_variable_fresh; simpl;
      [|assumption|apply not_elem_of_snoc_sorted; assumption].
    rewrite !sorted_snoc_snoc.
    rewrite (insert_by_comm Str.lower a b); [reflexivity|exact Hkey].
  - do 3 eexists.
    split; [apply add_constant_fresh; assumption|].
    split; [apply add_variable_fresh; simpl;
            [apply not_elem_of_snoc_sorted|]; assumption|].
    split; [apply add_variable_fresh; assumption|].
    rewrite add_constant_fresh; simpl;
      [reflexivity|assumption|apply not_elem_of_snoc_sorted; assumption].
Qed.

Lemma add_order_witness :
  exists va vb vab,
    add_constant {| _C := ["b"]; _R := []; _V := ["x"] |} (PyStr "c")
    = (Ok tt, va) /\
    add_constant va (PyStr "A") = (Ok tt, vab) /\
    add_constant {| _C := ["b"]; _R := []; _V := ["x"] |} (PyStr "A")
    = (Ok tt, vb) /\
    add_constant vb (PyStr "c") = (Ok tt, vab).
Proof.
  assert (Hc1 : "c" ∉ ["b"]) by (apply mem_false; reflexivity).
  assert (Hc2 : "c" ∉ ["x"]) by (apply mem_false; reflexivity).
  assert (Ha1 : "A" ∉ ["b"]) by (apply mem_false; reflexivity).
  assert (Ha2 : "A" ∉ ["x"]) by (apply mem_false; reflexivity).
  assert (Hne : "c" <> "A") by discriminate.
  assert (Hlow : Str.lower "c" <> Str.lower "A") by discriminate.
  exact (proj1 (proj1 (add_order {| _C := ["b"]; _R := []; _V := ["x"] |}
                         "c" "A" Hc1 Hc2 Ha1 Ha2 Hne) Hlow)).
Defined.

(** Symbols that differ in case alone stay in the order they were added
    in, so the two orders leave different lists. *)
Example add_order_ties :
  snd (add_constant
         (snd (add_constant {| _C := []; _R := []; _V := [] |} (PyStr "a")))
         (PyStr "A"))
  <> snd (add_constant
            (snd (add_constant {| _C := []; _R := []; _V := [] |}
                    (PyStr "A")))
            (PyStr "a")).
Proof. vm_compute. discriminate. Qed.

Section Growing.
Context `{RT : Runtime}.

Lemma construct_disjoint (C : list string) (R : list RelationSymbol)
    (V : list string) :
  (forall s, s ∈ C -> s ∉ V) -> NoDup (map _name R) ->
  construct C R V
  = Ok {| _C := sorted Str.lower (py_set C);
          _R := sorted (fun rs => Str.lower (_name rs)) (py_set R);
          _V := sorted Str.lower (py_set V) |}.
Proof.
  intros Hd Hn. unfold construct.
  rewrite (init_disjoint _ _ _ _ _ _
             (strs_fmap _) (rels_fmap _) (strs_fmap _) Hd).
  rewrite (bool_decide_eq_true_2 _ Hn). reflexivity.
Qed.

Lemma construct_inv (C : list string) (R : list RelationSymbol)
    (V : list string) (v : Vocabulary) :
  construct C R V = Ok v ->
  (forall s, s ∈ C -> s ∉ V) /\ NoDup (map _name R).
Proof.
  unfold construct. intros H. apply init_Ok in H.
  destruct H as (cs & rs & vs & [= <-] & [= <-] & [= <-] &
                 c & r & x & Hc & Hr & Hx & Hd & Hn & _).
  rewrite strs_fmap in Hc. rewrite rels_fmap in Hr. rewrite strs_fmap in Hx.
  injection Hc as <-. injection Hr as <-. injection Hx as <-.
  split; [exact Hd|]. apply py_set_length, Hn.
Qed.

Lemma sorted_snoc_py_set (l : list string) (c : string) :
  c ∉ l -> case_distinct id (l ++ [c]) ->
  sorted Str.lower (sorted Str.lower (py_set l) ++ [c])
  = sorted Str.lower (py_set (l ++ [c])).
Proof.
  intros Hc Hcase. apply sorted_unique.
  - intros x y Hx Hy. apply (Hcase x y).
    + rewrite elem_of_app, elem_of_sorted, py_set_elem in Hx.
      apply elem_of_app. exact Hx.
    + rewrite elem_of_app, elem_of_sorted, py_set_elem in Hy.
      apply elem_of_app. exact Hy.
  - apply NoDup_Permutation.
    + apply NoDup_app. repeat split.
      * apply NoDup_sorted, py_set_NoDup.
      * intros y Hy Hyc. apply list_elem_of_singleton in Hyc. subst y.
        rewrite elem_of_sorted, py_set_elem in Hy. auto.
      * apply NoDup_singleton.
    + apply py_set_NoDup.
    + intros x.
      rewrite py_set_elem, !elem_of_app, elem_of_sorted, py_set_elem.
      reflexivity.
Qed.

End Growing.

(** X8: adding a symbol to a constructed Vocabulary and constructing the
    Vocabulary with the symbol at the end of the list come to the same.
    For a string that is in neither C nor V both are done without an
    exception and the two objects compare equal; they hold the same lists
    where the symbol and the ones of its list do not differ in case
    alone. *)
Theorem add_agrees_with_constructor `{RT : Runtime}
    (C : list string) (R : list RelationSymbol) (V : list string)
    (v : Vocabulary) (c : string) :
  construct C R V = Ok v -> c ∉ C -> c ∉ V ->
  (exists v1 v2,
     add_constant v (PyStr c) = (Ok tt, v1) /\
     construct (C ++ [c]) R V = Ok v2 /\
     __eq__ v1 v2 = true /\
     (case_distinct id (C ++ [c]) -> v1 = v2)) /\
  (exists v1 v2,
     add_variable v (PyStr c) = (Ok tt, v1) /\
     construct C R (V ++ [c]) = Ok v2 /\
     __eq__ v1 v2 = true /\
     (case_distinct id (V ++ [c]) -> v1 = v2)).
Proof.
  intros Hv HC HV.
  destruct (construct_inv _ _ _ _ Hv) as [Hd Hn].
  apply construct_Ok in Hv. subst v.
  split.
  - do 2 eexists.
    split; [apply add_constant_fresh; simpl;
            rewrite elem_of_sorted, py_set_elem; assumption|].
    split; [apply construct_disjoint; [|exact Hn]|].
    { intros s. rewrite elem_of_app, list_elem_of_singleton.
      intros [Hs| ->]; auto. }
    split.
    + apply eq_set_based. simpl.
      split; [|split]; intros x;
        rewrite ?elem_of_sorted, ?py_set_elem, ?elem_of_app,
          ?elem_of_sorted, ?py_set_elem; reflexivity.
    + intros Hcase. simpl. f_equal. apply sorted_snoc_py_set; assumption.
  - do 2 eexists.
    split; [apply add_variable_fresh; simpl;
            rewrite elem_of_sorted, py_set_elem; assumption|].
    split; [apply construct_disjoint; [|exact Hn]|].
    { intros s Hs. rewrite elem_of_app, list_elem_of_singleton.
      intros [Hs'| ->]; [exact (Hd s Hs Hs')|auto]. }
    split.
    + apply eq_set_based. simpl.
      split; [|split]; intros x;
        rewrite ?elem_of_sorted, ?py_set_elem, ?elem_of_app,
          ?elem_of_sorted, ?py_set_elem; reflexivity.
    + intros Hcase. simpl. f_equal. apply sorted_snoc_py_set; assumption.
Qed.

Lemma add_agrees_with_constructor_witness :
  exists v1 v2,
    add_constant {| _C := ["a"]; _R := [P1]; _V := ["x"] |} (PyStr "B")
    = (Ok tt, v1) /\
    construct (["a"] ++ ["B"]) [P1] ["x"] = Ok v2 /\
    __eq__ v1 v2 = true.
Proof.
  assert (HC : "B" ∉ ["a"]) by (apply mem_false; reflexivity).
  assert (HV : "B" ∉ ["x"]) by (apply mem_false; reflexivity).
  destruct (@add_agrees_with_constructor insertion_order
              ["a"] [P1] ["x"] _ "B" eq_refl HC HV)
    as [(v1 & v2 & H1 & H2 & H3 & _) _].
  exists v1, v2. split; [exact H1|]. split; [exact H2|exact H3].
Defined.

(** X10: equal Vocabularies hash alike where case does not tie.  Two
    Vocabularies made by the constructor and by calls of [add_constant] and
    [add_variable] that returned, which compare equal and in whose lists no
    two symbols differ in case alone, have the same key and the same
    hash. *)
Theorem reachable_eq_hash `{RT : Runtime} (v v' : Vocabulary) :
  reachable v -> reachable v' -> __eq__ v v' = true ->
  case_distinct id (_C v) -> case_distinct _name (_R v) ->
  case_distinct id (_V v) ->
  _key v = _key v' /\ __hash__ v = __hash__ v'.
Proof.
  intros Hv Hv' Heq HC HR HV.
  destruct (reachable_invariant v Hv) as [HCn HVn HCs HVs _].
  destruct (reachable_invariant v' Hv') as [HCn' HVn' HCs' HVs' _].
  destruct (reachable_R v Hv) as [HRn HRs].
  destruct (reachable_R v' Hv') as [HRn' HRs'].
  apply eq_set_based in Heq. destruct Heq as (EC & ER & EV).
  rewrite map_fmap in HRn, HRn'.
  apply NoDup_fmap_1 in HRn, HRn'.
  assert (Hlist : forall (A : Type) (name : A -> string) (l l' : list A),
             NoDup l -> NoDup l' -> same_elements l l' ->
             case_distinct name l ->
             StronglySorted (key_le (fun x => Str.lower (name x))) l ->
             StronglySorted (key_le (fun x => Str.lower (name x))) l' ->
             l = l').
  { intros A name l l' Hl Hl' Hsame Hcase Hs Hs'.
    apply (StronglySorted_unique_strong
             (key_le (fun x => Str.lower (name x)))); try assumption.
    - intros x y Hx Hy Hxy Hyx. apply Hcase.
      + exact Hx.
      + apply Hsame, Hy.
      + apply String.leb_antisym; assumption.
    - apply NoDup_Permutation; assumption. }
  assert (E : _key v = _key v').
  { unfold _key. destruct v as [c r x], v' as [c' r' x']; simpl in *.
    rewrite (Hlist _ id c c'), (Hlist _ _name r r'), (Hlist _ id x x');
      auto. }
  split; [exact E|]. unfold __hash__. rewrite E. reflexivity.
Qed.

Lemma reachable_eq_hash_witness :
  exists v v',
    add_constant {| _C := ["B"]; _R := []; _V := [] |} (PyStr "a")
    = (Ok tt, v) /\
    construct (RT:=insertion_order) ["B"; "a"; "B"] [] [] = Ok v' /\
    __hash__ (RT:=insertion_order) v = __hash__ (RT:=insertion_order) v'.
Proof.
  eexists. eexists. split; [reflexivity|]. split; [reflexivity|].
  assert (H1 : reachable (RT:=insertion_order)
                 {| _C := sorted Str.lower (["B"] ++ ["a"]);
                    _R := []; _V := [] |}).
  { apply (reach_add_constant
             {| _C := ["B"]; _R := []; _V := [] |} (PyStr "a"));
      [|reflexivity].
    apply (reach_init (PyList [PyStr "B"]) (PyList []) (PyList [])).
    reflexivity. }
  assert (H2 : reachable (RT:=insertion_order)
                 {| _C := sorted Str.lower (py_set ["B"; "a"; "B"]);
                    _R := sorted (fun rs => Str.lower (_name rs)) (py_set []);
                    _V := sorted Str.lower (py_set []) |}).
  { apply (reach_init (PyList [PyStr "B"; PyStr "a"; PyStr "B"])
             (PyList []) (PyList [])).
    reflexivity. }
  apply (reachable_eq_hash _ _ H1 H2); try reflexivity;
    apply case_distinct_compute; reflexivity.
Defined.

(** *** The printed form *)

Lemma length_append (s t : string) :
  String.length (s +:+ t) = (String.length s + String.length t)%nat.
Proof. induction s as [|c s IH]; simpl; [reflexivity|]. rewrite IH. lia. Qed.

Lemma append_assoc (s t u : string) : (s +:+ t) +:+ u = s +:+ t +:+ u.
Proof.
  induction s as [|c s IH]; [reflexivity|].
  change (String c ((s +:+ t) +:+ u) = String c (s +:+ t +:+ u)).
  rewrite IH. reflexivity.
Qed.

Lemma substring_append (s t : string) :
  substring 0 (String.length s) (s +:+ t) = s.
Proof.
  induction s as [|c s IH]; simpl.
  - destruct t; reflexivity.
  - rewrite IH. reflexivity.
Qed.

Section Printing.

(** [str(r)] for a relation symbol; its class is not among the sources. *)
Variable str_rel : RelationSymbol -> string.

(** ['[' + ''.join([c + ', ' for c in l])[:-2] + ']']: the slice [[:-2]]
    keeps the characters before the last two, and nothing of a string that
    has fewer than two. *)
Definition bracketed (l : list string) : string :=
  let joined := String.concat "" (map (fun c => c +:+ ", ") l) in
  "[" +:+ substring 0 (String.length joined - 2) joined +:+ "]".

Definition __str__ (self : Vocabulary) : string :=
  let c_str := bracketed (_C self) in
  let r_str := bracketed (map str_rel (_R self)) in
  let v_str := bracketed (_V self) in
  "(" +:+ c_str +:+ ", " +:+ r_str +:+ ", " +:+ v_str +:+ ")".

Definition __repr__ (self : Vocabulary) : string := __str__ self.

Lemma joined_separators (l : list string) :
  l <> [] ->
  String.concat "" (map (fun c => c +:+ ", ") l)
  = String.concat ", " l +:+ ", ".
Proof.
  induction l as [|x l IH]; [congruence|]. intros _.
  destruct l as [|y l]; [reflexivity|].
  change (String.concat "" (map (fun c => c +:+ ", ") (x :: y :: l)))
    with ((x +:+ ", ") +:+ "" +:+
          String.concat "" (map (fun c => c +:+ ", ") (y :: l))).
  change (String.concat ", " (x :: y :: l))
    with (x +:+ ", " +:+ String.concat ", " (y :: l)).
  rewrite IH by discriminate. simpl. rewrite !append_assoc. reflexivity.
Qed.

Lemma bracketed_spec (l : list string) :
  bracketed l = "[" +:+ String.concat ", " l +:+ "]".
Proof.
  unfold bracketed. destruct l as [|x l]; [reflexivity|].
  rewrite joined_separators by discriminate.
  generalize (String.concat ", " (x :: l)). intros j.
  rewrite length_append.
  replace (String.length j + String.length ", " - 2)%nat
    with (String.length j) by (simpl; lia).
  rewrite substring_append. reflexivity.
Qed.

End Printing.

(** X11: [str] and [repr] of a Vocabulary give the three lists between
    parentheses, each between brackets with its symbols separated by a
    comma and a space; cutting the last two characters of the joined
    entries takes away the separator behind the last symbol and leaves the
    empty list as []. *)
Theorem str_format (str_rel : RelationSymbol -> string) (v : Vocabulary) :
  __str__ str_rel v
  = "(" +:+ ("[" +:+ String.concat ", " (_C v) +:+ "]") +:+ ", "
    +:+ ("[" +:+ String.concat ", " (map str_rel (_R v)) +:+ "]") +:+ ", "
    +:+ ("[" +:+ String.concat ", " (_V v) +:+ "]") +:+ ")" /\
  __repr__ str_rel v = __str__ str_rel v /\
  __str__ str_rel {| _C := []; _R := []; _V := [] |} = "([], [], [])".
Proof.
  split; [|split; reflexivity].
  unfold __str__. rewrite !bracketed_spec. reflexivity.
Qed.

End Voc.

(** ** [Classes/Vocabulary.py] *)

(** The class as the older module has it: the constructor sorts the
    constants and the variables as strings and the relation symbols by
    name, without folding case, and does not look for repeated names; the
    methods that add symbols are not there yet. *)
Module Voc0.

Import Voc.

Section Methods.
Context `{RT : Runtime}.

(** [Vocabulary(C, R, V)]; [sorted] without a key compares the strings
    themselves. *)
Definition __init__ (C R V : pyobj) : result Vocabulary :=
  match C with
  | PyList lc =>
    match R with
    | PyList lr =>
      match V with
      | PyList lv =>
        match strs lc with
        | None =>
            Raise (TypeError "all entries in C parameter must be of type str")
        | Some cs =>
          match rels lr with
          | None =>
              Raise (TypeError
                "all entries in R parameter must be of type RelationSymbol")
          | Some rs =>
            match strs lv with
            | None =>
                Raise (TypeError
                  "all entries in V parameter must be of type str")
            | Some vs =>
              let intersection := set_and (py_set cs) (py_set vs) in
              if (0 <? length intersection)%nat then
                Raise (ValueError
                  "C and V parameters may not have a common element")
              else
                Ok {| _C := sorted id (py_set cs);
                      _R := sorted _name (py_set rs);
                      _V := sorted id (py_set vs) |}
            end
          end
        end
      | _ => Raise (TypeError "V parameter must be of type list")
      end
    | _ => Raise (TypeError "R parameter must be of type list")
    end
  | _ => Raise (TypeError "C parameter must be of type list")
  end.

(** [self == other], the same text as in the later module. *)
Definition __eq__ (self other : Vocabulary) : bool :=
  let c_cond := set_eq (py_set (_C self)) (py_set (_C other)) in
  let r_cond := set_eq (py_set (_R self)) (py_set (_R other)) in
  let v_cond := set_eq (py_set (_V self)) (py_set (_V other)) in
  if c_cond && r_cond && v_cond then true else false.

Definition __ne__ (self other : Vocabulary) : bool :=
  negb (__eq__ self other).

(** [copy.deepcopy(self)]. *)
Definition __deepcopy__ (self : Vocabulary) : result Vocabulary :=
  __init__ (PyList (PyStr <$> _C self)) (PyList (PyRel <$> _R self))
    (PyList (PyStr <$> _V self)).

(** The constructor on lists of strings and of relation symbols. *)
Definition construct
    (C : list string) (R : list RelationSymbol) (V : list string)
  : result Vocabulary :=
  __init__ (PyList (PyStr <$> C)) (PyList (PyRel <$> R))
    (PyList (PyStr <$> V)).

Lemma construct0_spec (C : list string) (R : list RelationSymbol)
    (V : list string) :
  ((forall s, s ∈ C -> s ∉ V) ->
   construct C R V
   = Ok {| _C := sorted id (py_set C);
           _R := sorted _name (py_set R);
           _V := sorted id (py_set V) |}) /\
  ((exists s, s ∈ C /\ s ∈ V) ->
   construct C R V = Raise common_element).
Proof.
  unfold construct, __init__. rewrite !strs_fmap, rels_fmap.
  destruct (0 <? _)%nat eqn:Hcap; split.
  - intros Hd. apply set_and_nonempty in Hcap.
    destruct Hcap as (s & H1 & H2). rewrite py_set_elem in H1, H2.
    destruct (Hd s H1 H2).
  - reflexivity.
  - reflexivity.
  - intros (s & H1 & H2).
    destruct (set_and_empty _ _ Hcap s); apply py_set_elem; assumption.
Qed.

Lemma construct0_Ok (C : list string) (R : list RelationSymbol)
    (V : list string) (v : Vocabulary) :
  construct C R V = Ok v ->
  (forall s, s ∈ C -> s ∉ V) /\
  v = {| _C := sorted id (py_set C);
         _R := sorted _name (py_set R);
         _V := sorted id (py_set V) |}.
Proof.
  unfold construct, __init__. rewrite !strs_fmap, rels_fmap.
  destruct (0 <? _)%nat eqn:Hcap; [discriminate|].
  intros [= <-]. split; [|reflexivity].
  intros s H1 H2.
  apply (set_and_empty _ _ Hcap s); apply py_set_elem; assumption.
Qed.

Lemma eq_same_elements (u u' : Vocabulary) :
  __eq__ u u' = true <->
  same_elements (_C u) (_C u') /\ same_elements (_R u) (_R u') /\
  same_elements (_V u) (_V u').
Proof. apply eq_set_based. Qed.

(** Sorting on a key that tells the elements apart gives one list for one
    set of elements. *)
Lemma sorted_set {A : Type} `{EqDecision A} (key : A -> string) l l' :
  same_elements l l' ->
  (forall x y, x ∈ l -> y ∈ l -> key x = key y -> x = y) ->
  sorted key (py_set l) = sorted key (py_set l').
Proof.
  intros Hsame Hkey. apply sorted_unique.
  - intros x y Hx Hy. apply Hkey; apply py_set_elem; assumption.
  - apply py_set_Permutation, Hsame.
Qed.

End Methods.

(** X12: the earlier constructor puts a Vocabulary in a form that depends
    on the sets of symbols alone.  It returns exactly when no string is in
    both C and V, a repeated relation symbol or a repeated name being let
    through; two triples of lists with the same elements give objects with
    the same constants and the same variables, in the same order, which
    compare equal, and which are the same object throughout when no two
    relation symbols have one name; and a deep copy of such an object is
    made without an exception and compares equal to it. *)
Theorem constructor_canonical `{RT : Runtime}
    (C C' : list string) (R R' : list RelationSymbol) (V V' : list string) :
  same_elements C C' -> same_elements R R' -> same_elements V V' ->
  ((forall s, s ∈ C -> s ∉ V) <-> exists v, construct C R V = Ok v) /\
  (forall v v', construct C R V = Ok v -> construct C' R' V' = Ok v' ->
     _C v = _C v' /\ _V v = _V v' /\ __eq__ v v' = true /\
     ((forall r r', r ∈ R -> r' ∈ R -> _name r = _name r' -> r = r') ->
      v = v') /\
     exists w, __deepcopy__ v = Ok w /\ __eq__ v w = true /\
       _C w = _C v /\ _V w = _V v).
Proof.
  intros HC HR HV. split.
  - split.
    + intros Hd. eexists. apply construct0_spec, Hd.
    + intros (v & Hv). apply construct0_Ok in Hv. tauto.
  - intros v v' Hv Hv'.
    apply construct0_Ok in Hv, Hv'. destruct Hv as [Hd ->], Hv' as [Hd' ->].
    simpl.
    assert (EC : sorted id (py_set C) = sorted id (py_set C'))
      by (apply sorted_set; [exact HC|auto]).
    assert (EV : sorted id (py_set V) = sorted id (py_set V'))
      by (apply sorted_set; [exact HV|auto]).
    split; [exact EC|]. split; [exact EV|]. split; [|split].
    + apply eq_same_elements. simpl.
      split; [|split]; intros x; rewrite !elem_of_sorted, !py_set_elem;
        [apply HC|apply HR|apply HV].
    + intros Hname. rewrite EC, EV. f_equal.
      apply sorted_set; assumption.
    + eexists. split.
      * apply (proj1 (construct0_spec _ _ _)). simpl.
        intros s. rewrite !elem_of_sorted, !py_set_elem. apply Hd.
      * simpl. split; [|split].
        -- apply eq_same_elements. simpl.
           split; [|split]; intros x;
             rewrite !elem_of_sorted, !py_set_elem, !elem_of_sorted,
               !py_set_elem; reflexivity.
        -- apply sorted_set; [|auto].
           intros x. rewrite elem_of_sorted, py_set_elem. reflexivity.
        -- apply sorted_set; [|auto].
           intros x. rewrite elem_of_sorted, py_set_elem. reflexivity.
Qed.

Lemma constructor_canonical_witness :
  exists v v',
    construct (RT:=insertion_order) ["b"; "A"; "b"] [P1; P1] ["y"] = Ok v /\
    construct (RT:=insertion_order) ["A"; "b"] [P1] ["y"; "y"] = Ok v' /\
    v = v'.
Proof.
  assert (HC : same_elements ["b"; "A"; "b"] ["A"; "b"])
    by (apply same_elements_compute; reflexivity).
  assert (HR : same_elements [P1; P1] [P1])
    by (apply same_elements_compute; reflexivity).
  assert (HV : same_elements ["y"] ["y"; "y"])
    by (apply same_elements_compute; reflexivity).
  destruct (@constructor_canonical insertion_order _ _ _ _ _ _ HC HR HV)
    as [_ Hsame].
  eexists. eexists. split; [reflexivity|]. split; [reflexivity|].
  apply (Hsame _ _ eq_refl eq_refl).
  intros r r' Hr Hr' _.
  apply list_elem_of_In in Hr, Hr'. simpl in Hr, Hr'.
  destruct Hr as [<-|[<-|[]]], Hr' as [<-|[<-|[]]]; reflexivity.
Defined.

End Voc0.

(** ** [vivid/classes/inference_rules.py] *)

Module Rules.

(** Plain Python data: what [assign_truth_value] answers with. *)
Inductive atom : Type :=
| ANone
| ABool (b : bool)
| AInt (z : Z)
| AStr (s : string).

(** [v is True]. *)
Definition is_True (v : atom) : bool :=
  match v with
  | ABool true => true
  | _ => false
  end.

(** [bool(v)], the test an [if v] makes. *)
Definition truthy (v : atom) : bool :=
  match v with
  | ANone => false
  | ABool b => b
  | AInt z => negb (z =? 0)%Z
  | AStr s => negb (String.eqb s "")
  end.

(** The classes the rules are written against (Context, NamedState,
    Formula, AssumptionBase, VariableAssignment) are not among the sources.
    Their objects live in a store; an attribute is read from the store, and
    a method or constructor is a computation that may change the store and
    may raise. *)
Class Collaborators : Type := {
  store : Type;
  Vocabulary : Type;
  AttributeSystem : Type;
  ConstantAssignment : Type;
  VariableAssignment : Type;
  AttributeInterpretation : Type;
  Formula : Type;
  AssumptionBase : Type;
  NamedState : Type;
  Context : Type;
  Basis : Type;
  (* attributes *)
  _named_state : Context -> store -> NamedState;
  _assumption_base : Context -> store -> AssumptionBase;
  _p : NamedState -> store -> ConstantAssignment;
  _attribute_system : NamedState -> store -> AttributeSystem;
  _p_vocabulary : ConstantAssignment -> store -> Vocabulary;
  _vocabulary : AssumptionBase -> store -> Vocabulary;
  _formulae : AssumptionBase -> store -> list Formula;
  (* bool(x) *)
  AssumptionBase_bool : AssumptionBase -> store -> bool;
  AttributeInterpretation_bool : AttributeInterpretation -> store -> bool;
  VariableAssignment_bool : VariableAssignment -> store -> bool;
  (* constructors *)
  AssumptionBase_of : list Formula -> store -> result AssumptionBase * store;
  AssumptionBase_over : Vocabulary -> store -> result AssumptionBase * store;
  Context_of :
    AssumptionBase -> NamedState -> store -> result Context * store;
  VariableAssignment_dummy :
    Vocabulary -> AttributeSystem -> store ->
    result VariableAssignment * store;
  (* NamedState *)
  __le__ : NamedState -> NamedState -> store -> result bool * store;
  is_named_entailment :
    NamedState -> AssumptionBase -> option AttributeInterpretation ->
    list NamedState -> store -> result bool * store;
  is_exhaustive :
    NamedState -> Basis -> list NamedState -> store -> result bool * store;
  get_worlds : NamedState -> store -> result (list NamedState) * store;
  _generate_variable_assignments :
    NamedState -> store -> result (list VariableAssignment) * store;
  satisfies_context :
    NamedState -> Context -> VariableAssignment -> AttributeInterpretation ->
    store -> result bool * store;
  (* Context *)
  entails_named_state :
    Context -> NamedState -> AttributeInterpretation ->
    store -> result bool * store;
  entails_formula :
    Context -> Formula -> AttributeInterpretation ->
    store -> result bool * store;
  (* Formula *)
  assign_truth_value :
    Formula -> AttributeInterpretation -> NamedState -> VariableAssignment ->
    store -> result atom * store;
  get_basis :
    ConstantAssignment -> VariableAssignment -> AttributeInterpretation ->
    list Formula -> store -> result Basis * store;
  Formula_add :
    Formula -> AssumptionBase -> store -> result AssumptionBase * store;
  (* AssumptionBase *)
  AssumptionBase_contains :
    AssumptionBase -> Formula -> store -> result bool * store
}.

Section Monad.
Context `{E : Collaborators}.

Definition M (A : Type) : Type := store -> result A * store.

Definition ret {A} (a : A) : M A := fun s => (Ok a, s).

Definition raise {A} (e : exn) : M A := fun s => (Raise e, s).

Definition bind {A B} (c : M A) (k : A -> M B) : M B :=
  fun s =>
    match c s with
    | (Ok a, s') => k a s'
    | (Raise e, s') => (Raise e, s')
    end.

(** An attribute read. *)
Definition read {A} (f : store -> A) : M A := fun s => (Ok (f s), s).

End Monad.

Notation "'do' x <- c ; k" := (bind c (fun x => k))
  (at level 10, x name, c at level 100, k at level 200,
   format "'[v' 'do'  x  <-  c ; '/' k ']'").
Notation "'run' c ; k" := (bind c (fun _ => k))
  (at level 10, c at level 100, k at level 200,
   format "'[v' 'run'  c ; '/' k ']'").

Section Rules.
Context `{E : Collaborators}.

(** The arguments whose kind a rule looks at before it uses them. *)
Inductive pyobj : Type :=
| PyAtom (a : atom)
| PyContext (c : Context)
| PyNamedState (n : NamedState)
| PyAssumptionBase (b : AssumptionBase)
| PyFormula (f : Formula).

(** [hasattr(x, "_is_Context")] and [hasattr(x, "_is_NamedState")]. *)
Definition is_Context (x : pyobj) : bool :=
  match x with PyContext _ => true | _ => false end.

Definition is_NamedState (x : pyobj) : bool :=
  match x with PyNamedState _ => true | _ => false end.

Definition not_a_Context : exn :=
  TypeError "context parameter must be a Context object.".

Definition not_a_NamedState : exn :=
  TypeError "named_state parameter must be a NamedState object.".

(** [thinning(context, named_state, assumption_base=None,
    attribute_interpretation=None)].  [not assumption_base] holds of None
    and of an assumption base whose [bool] is false. *)
Definition thinning (context named_state : pyobj)
    (assumption_base : option AssumptionBase)
    (attribute_interpretation : option AttributeInterpretation) : M bool :=
  match context with
  | PyContext context =>
    match named_state with
    | PyNamedState named_state =>
      let plain :=
        do ns <- read (_named_state context);
        __le__ named_state ns in
      match assumption_base with
      | None => plain
      | Some assumption_base =>
        do supplied <- read (AssumptionBase_bool assumption_base);
        if negb supplied then plain
        else
          do ns <- read (_named_state context);
          do proviso <- is_named_entailment ns assumption_base
                          attribute_interpretation [named_state];
          ret proviso
      end
    | _ => raise not_a_NamedState
    end
  | _ => raise not_a_Context
  end.

(** [widening(context, named_state, attribute_interpretation=None)]: the
    value of the call of [entails_named_state] is dropped. *)
Definition widening (context named_state : pyobj)
    (attribute_interpretation : option AttributeInterpretation) : M bool :=
  match context with
  | PyContext context =>
    match named_state with
    | PyNamedState named_state =>
      run (match attribute_interpretation with
           | None => ret tt
           | Some attribute_interpretation =>
             do supplied <-
               read (AttributeInterpretation_bool attribute_interpretation);
             if supplied then
               run entails_named_state context named_state
                     attribute_interpretation;
               ret tt
             else ret tt
           end);
      do ns <- read (_named_state context);
      __le__ ns named_state
    | _ => raise not_a_NamedState
    end
  | _ => raise not_a_Context
  end.

(** [observe(context, formula, attribute_interpretation)]. *)
Definition observe (context : Context) (formula : Formula)
    (attribute_interpretation : AttributeInterpretation) : M bool :=
  entails_formula context formula attribute_interpretation.

(** [diagrammatic_absurdity(context, named_state,
    attribute_interpretation)]. *)
Definition diagrammatic_absurdity (context named_state : pyobj)
    (attribute_interpretation : AttributeInterpretation) : M bool :=
  match context with
  | PyContext context =>
    match named_state with
    | PyNamedState named_state =>
      entails_named_state context named_state attribute_interpretation
    | _ => raise not_a_NamedState
    end
  | _ => raise not_a_Context
  end.

(** [diagram_reiteration(context)]. *)
Definition diagram_reiteration (context : Context) : M NamedState :=
  read (_named_state context).

(** [VariableAssignment(context._named_state._p._vocabulary,
    context._named_state._attribute_system, {}, dummy=True)]. *)
Definition dummy (context : Context) : M VariableAssignment :=
  do ns <- read (_named_state context);
  do p <- read (_p ns);
  do vocabulary <- read (_p_vocabulary p);
  do ns' <- read (_named_state context);
  do attribute_system <- read (_attribute_system ns');
  VariableAssignment_dummy vocabulary attribute_system.

(** [if not variable_assignment: variable_assignment = ...]. *)
Definition or_dummy (context : Context)
    (variable_assignment : option VariableAssignment)
  : M VariableAssignment :=
  match variable_assignment with
  | None => dummy context
  | Some X =>
    do given <- read (VariableAssignment_bool X);
    if negb given then dummy context else ret X
  end.

Definition no_disjunct : exn :=
  ValueError "disjunction F1 OR F2 does not hold".

(** The lines the two sentential rules open with: the variable
    assignment, the truth values of F1 and F2, and the error when neither
    is True. *)
Definition disjunction_holds (context : Context) (F1 F2 : Formula)
    (attribute_interpretation : AttributeInterpretation)
    (variable_assignment : option VariableAssignment)
  : M (VariableAssignment * atom * atom) :=
  do variable_assignment <- or_dummy context variable_assignment;
  do ns1 <- read (_named_state context);
  do F1_holds <- assign_truth_value F1 attribute_interpretation ns1
                   variable_assignment;
  do ns2 <- read (_named_state context);
  do F2_holds <- assign_truth_value F2 attribute_interpretation ns2
                   variable_assignment;
  if negb (is_True F1_holds) && negb (is_True F2_holds) then
    raise no_disjunct
  else ret (variable_assignment, F1_holds, F2_holds).

(** [sentential_to_sentential(context, F1, F2, G,
    attribute_interpretation, variable_assignment=None)]. *)
Definition sentential_to_sentential (context : Context) (F1 F2 G : Formula)
    (attribute_interpretation : AttributeInterpretation)
    (variable_assignment : option VariableAssignment) : M bool :=
  do holds <- disjunction_holds context F1 F2 attribute_interpretation
                variable_assignment;
  let '(variable_assignment, F1_holds, F2_holds) := holds in
  do ns <- read (_named_state context);
  do G_holds <- assign_truth_value G attribute_interpretation ns
                  variable_assignment;
  if truthy F1_holds && negb (truthy G_holds) then ret false
  else if truthy F2_holds && negb (truthy G_holds) then ret false
  else ret true.

(** [F + context._assumption_base] unless F is in it already. *)
Definition with_formula (context : Context) (F : Formula)
  : M AssumptionBase :=
  do ab <- read (_assumption_base context);
  do present <- AssumptionBase_contains ab F;
  if negb present then
    do ab' <- read (_assumption_base context);
    Formula_add F ab'
  else read (_assumption_base context).

(** The inner loop of [sentential_to_diagrammatic]; false is the
    [return False] that leaves both loops. *)
Fixpoint for_assignments (world : NamedState) (f1_context f2_context : Context)
    (attribute_interpretation : AttributeInterpretation)
    (Xs : list VariableAssignment) : M bool :=
  match Xs with
  | [] => ret true
  | X :: Xs' =>
    do satisfies_f1_context <-
      satisfies_context world f1_context X attribute_interpretation;
    do satisfies_f2_context <-
      satisfies_context world f2_context X attribute_interpretation;
    if negb satisfies_f1_context || negb satisfies_f2_context then ret false
    else for_assignments world f1_context f2_context
           attribute_interpretation Xs'
  end.

Fixpoint for_worlds (f1_context f2_context : Context)
    (attribute_interpretation : AttributeInterpretation)
    (possible_worlds : list NamedState) : M bool :=
  match possible_worlds with
  | [] => ret true
  | world :: worlds =>
    do Xs <- _generate_variable_assignments world;
    do go_on <- for_assignments world f1_context f2_context
                  attribute_interpretation Xs;
    if go_on then for_worlds f1_context f2_context attribute_interpretation
                    worlds
    else ret false
  end.

(** [sentential_to_diagrammatic(context, F1, F2, named_state,
    attribute_interpretation, variable_assignment=None)], rule [C2]. *)
Definition sentential_to_diagrammatic (context : Context) (F1 F2 : Formula)
    (named_state : NamedState)
    (attribute_interpretation : AttributeInterpretation)
    (variable_assignment : option VariableAssignment) : M bool :=
  run disjunction_holds context F1 F2 attribute_interpretation
        variable_assignment;
  do f1_assumption_base <- with_formula context F1;
  do f2_assumption_base <- with_formula context F2;
  do ns1 <- read (_named_state context);
  do f1_context <- Context_of f1_assumption_base ns1;
  do ns2 <- read (_named_state context);
  do f2_context <- Context_of f2_assumption_base ns2;
  do possible_worlds <- get_worlds named_state;
  for_worlds f1_context f2_context attribute_interpretation possible_worlds.

(** [if l:] on a tuple or a list. *)
Definition nonempty {A} (l : list A) : bool :=
  match l with [] => false | _ :: _ => true end.

Definition not_exhaustive : exn :=
  ValueError "named states are not exahustive on basis of formulae.".

Definition no_proviso (tag : string) : exn :=
  ValueError (tag ++ " proviso does not hold").

(** The lines rules [C1] and [C3] share up to the proviso; [tag] is the
    rule's name in the message. *)
Definition case_split (tag : string) (context : Context)
    (named_states : list NamedState)
    (attribute_interpretation : AttributeInterpretation)
    (variable_assignment : VariableAssignment) (formulae : list Formula)
  : M unit :=
  do assumption_base <-
    (if nonempty formulae then
       do ns <- read (_named_state context);
       do constant_assignment <- read (_p ns);
       do basis <- get_basis constant_assignment variable_assignment
                     attribute_interpretation formulae;
       do ns' <- read (_named_state context);
       do exhaustive <- is_exhaustive ns' basis named_states;
       if negb exhaustive then raise not_exhaustive
       else AssumptionBase_of formulae
     else
       do ab <- read (_assumption_base context);
       do vocabulary <- read (_vocabulary ab);
       AssumptionBase_over vocabulary);
  do ns <- read (_named_state context);
  do proviso <- is_named_entailment ns assumption_base
                  (Some attribute_interpretation) named_states;
  if negb proviso then
    raise (no_proviso tag)
  else ret tt.

(** The context over the union of the context's formulae and the given
    ones. *)
Definition extended (context : Context) (formulae : list Formula)
  : M Context :=
  do ab <- read (_assumption_base context);
  do own <- read (_formulae ab);
  let formulae_union := own ++ formulae in
  do assumption_base_union <-
    (if nonempty formulae_union then AssumptionBase_of formulae_union
     else
       do ab' <- read (_assumption_base context);
       do vocabulary <- read (_vocabulary ab');
       AssumptionBase_over vocabulary);
  do ns <- read (_named_state context);
  Context_of assumption_base_union ns.

(** [diagrammatic_to_diagrammatic(context, inferred_named_state,
    named_states, attribute_interpretation, variable_assignment,
    *formulae)], rule [C1]. *)
Definition diagrammatic_to_diagrammatic (context : Context)
    (inferred_named_state : NamedState) (named_states : list NamedState)
    (attribute_interpretation : AttributeInterpretation)
    (variable_assignment : VariableAssignment) (formulae : list Formula)
  : M bool :=
  run case_split "[C1]" context named_states attribute_interpretation
        variable_assignment formulae;
  do extended_context <- extended context formulae;
  do entailed <- entails_named_state extended_context inferred_named_state
                   attribute_interpretation;
  if entailed then ret true else ret false.

(** [diagrammatic_to_sentential(context, F, named_states,
    attribute_interpretation, variable_assignment, *formulae)],
    rule [C3]. *)
Definition diagrammatic_to_sentential (context : Context) (F : Formula)
    (named_states : list NamedState)
    (attribute_interpretation : AttributeInterpretation)
    (variable_assignment : VariableAssignment) (formulae : list Formula)
  : M bool :=
  run case_split "[C3]" context named_states attribute_interpretation
        variable_assignment formulae;
  do extended_context <- extended context formulae;
  do entailed <- entails_formula extended_context F attribute_interpretation;
  if entailed then ret true else ret false.

(** *** Running a rule *)

Lemma bind_Ok {A B} (c : M A) (k : A -> M B) s a s' :
  c s = (Ok a, s') -> bind c k s = k a s'.
Proof. unfold bind. intros ->. reflexivity. Qed.

Lemma bind_Raise {A B} (c : M A) (k : A -> M B) s e s' :
  c s = (Raise e, s') -> bind c k s = (Raise e, s').
Proof. unfold bind. intros ->. reflexivity. Qed.

Lemma bind_read {A B} (f : store -> A) (k : A -> M B) s :
  bind (read f) k s = k (f s) s.
Proof. reflexivity. Qed.

Lemma bind_ret {A B} (a : A) (k : A -> M B) s : bind (ret a) k s = k a s.
Proof. reflexivity. Qed.

Lemma bind_raise {A B} (e : exn) (k : A -> M B) s :
  bind (raise e) k s = (Raise e, s).
Proof. reflexivity. Qed.

Lemma bind_assoc {A B C} (c : M A) (k1 : A -> M B) (k2 : B -> M C) s :
  bind (bind c k1) k2 s = bind c (fun a => bind (k1 a) k2) s.
Proof. unfold bind. destruct (c s) as [[a|e] s']; reflexivity. Qed.






(** *** The rules on a single diagram *)

(** C6: [thinning] raises TypeError unless it is given a Context and a
    NamedState; without an assumption base it answers
    [named_state <= context._named_state]; with one (an assumption base
    that an [if] takes for true) it answers [is_named_entailment] of the
    named state against it, asked of the context's named state. *)
Theorem thinning_spec (context named_state : pyobj)
    (assumption_base : option AssumptionBase)
    (attribute_interpretation : option AttributeInterpretation) (s : store) :
  (is_Context context = false ->
   thinning context named_state assumption_base attribute_interpretation s
   = (Raise not_a_Context, s)) /\
  (is_Context context = true -> is_NamedState named_state = false ->
   thinning context named_state assumption_base attribute_interpretation s
   = (Raise not_a_NamedState, s)) /\
  (forall c n, context = PyContext c -> named_state = PyNamedState n ->
     (assumption_base = None ->
      thinning context named_state assumption_base attribute_interpretation s
      = __le__ n (_named_state c s) s) /\
     (forall b, assumption_base = Some b ->
        AssumptionBase_bool b s = true ->
        thinning context named_state assumption_base
          attribute_interpretation s
        = is_named_entailment (_named_state c s) b attribute_interpretation
            [n] s) /\
     (forall b, assumption_base = Some b ->
        AssumptionBase_bool b s = false ->
        thinning context named_state assumption_base
          attribute_interpretation s
        = __le__ n (_named_state c s) s)).
Proof.
  split; [|split].
  - destruct context; simpl; intros; try reflexivity; discriminate.
  - destruct context; simpl; try discriminate. intros _.
    destruct named_state; simpl; intros; try reflexivity; discriminate.
  - intros c n -> ->. split; [|split].
    + intros ->. reflexivity.
    + intros b -> Hb. simpl. rewrite bind_read, Hb. simpl.
      rewrite bind_read. unfold bind.
      destruct (is_named_entailment _ _ _ _ _) as [[r|e] s']; reflexivity.
    + intros b -> Hb. simpl. rewrite bind_read, Hb. reflexivity.
Qed.

(** X1: what [widening] computes.  With an interpretation that an [if]
    takes for true, [entails_named_state] runs first and an exception of it
    leaves the rule; its answer is not looked at, and the rule answers
    [context._named_state <= named_state] in every case. *)
Lemma widening_answer (c : Context) (n : NamedState)
    (attribute_interpretation : option AttributeInterpretation) (s : store) :
  (attribute_interpretation = None ->
   widening (PyContext c) (PyNamedState n) attribute_interpretation s
   = __le__ (_named_state c s) n s) /\
  (forall i, attribute_interpretation = Some i ->
     AttributeInterpretation_bool i s = false ->
     widening (PyContext c) (PyNamedState n) attribute_interpretation s
     = __le__ (_named_state c s) n s) /\
  (forall i, attribute_interpretation = Some i ->
     AttributeInterpretation_bool i s = true ->
     (forall entailed s',
        entails_named_state c n i s = (Ok entailed, s') ->
        widening (PyContext c) (PyNamedState n) attribute_interpretation s
        = __le__ (_named_state c s') n s') /\
     (forall e s',
        entails_named_state c n i s = (Raise e, s') ->
        widening (PyContext c) (PyNamedState n) attribute_interpretation s
        = (Raise e, s'))).
Proof.
  split; [|split].
  - intros ->. reflexivity.
  - intros i -> Hi. simpl. unfold bind at 1. rewrite bind_read, Hi.
    reflexivity.
  - intros i -> Hi. split.
    + intros b s' H. simpl. unfold bind at 1. rewrite bind_read, Hi.
      rewrite (bind_Ok _ _ _ _ _ H). reflexivity.
    + intros e s' H. simpl. unfold bind at 1. rewrite bind_read, Hi.
      rewrite (bind_Raise _ _ _ _ _ H). reflexivity.
Qed.


(** C7: on a Context and a NamedState [diagrammatic_absurdity] is
    [context.entails_named_state], the same answer, exception and store;
    on anything else it raises TypeError. *)
Theorem diagrammatic_absurdity_spec (context named_state : pyobj)
    (attribute_interpretation : AttributeInterpretation) (s : store) :
  (forall c n, context = PyContext c -> named_state = PyNamedState n ->
     diagrammatic_absurdity context named_state attribute_interpretation s
     = entails_named_state c n attribute_interpretation s) /\
  (is_Context context = false ->
   diagrammatic_absurdity context named_state attribute_interpretation s
   = (Raise not_a_Context, s)) /\
  (is_Context context = true -> is_NamedState named_state = false ->
   diagrammatic_absurdity context named_state attribute_interpretation s
   = (Raise not_a_NamedState, s)).
Proof.
  split; [|split].
  - intros c n -> ->. reflexivity.
  - destruct context; simpl; intros; try reflexivity; discriminate.
  - destruct context; simpl; try discriminate. intros _.
    destruct named_state; simpl; intros; try reflexivity; discriminate.
Qed.

(** C8: [diagram_reiteration] returns the object the context holds as its
    named state, the very one it still holds after the call, and hands the
    store back as it was: no object, the context included, is changed. *)
Theorem diagram_reiteration_spec (context : Context) (s : store) :
  exists named_state s',
    diagram_reiteration context s = (Ok named_state, s') /\
    named_state = _named_state context s /\
    named_state = _named_state context s' /\
    s' = s.
Proof.
  exists (_named_state context s), s.
  unfold diagram_reiteration, read. repeat split.
Qed.

(** *** The two rules that split on a disjunction *)

Ltac run_step :=
  first [ rewrite bind_assoc
        | rewrite bind_read
        | rewrite bind_ret
        | rewrite bind_raise
        | match goal with
          | H : _ = (Ok _, _) |- _ => rewrite (bind_Ok _ _ _ _ _ H)
          | H : _ = (Raise _, _) |- _ => rewrite (bind_Raise _ _ _ _ _ H)
          end ].

Lemma disjunction_holds_spec (context : Context) (F1 F2 : Formula)
    (attribute_interpretation : AttributeInterpretation)
    (variable_assignment : option VariableAssignment)
    (s s0 s1 s2 : store) (X : VariableAssignment) (v1 v2 : atom) :
  or_dummy context variable_assignment s = (Ok X, s0) ->
  assign_truth_value F1 attribute_interpretation (_named_state context s0) X
    s0 = (Ok v1, s1) ->
  assign_truth_value F2 attribute_interpretation (_named_state context s1) X
    s1 = (Ok v2, s2) ->
  disjunction_holds context F1 F2 attribute_interpretation
    variable_assignment s
  = if negb (is_True v1) && negb (is_True v2) then (Raise no_disjunct, s2)
    else (Ok (X, v1, v2), s2).
Proof.
  intros HX H1 H2. unfold disjunction_holds.
  repeat run_step.
  destruct (negb (is_True v1) && negb (is_True v2)); reflexivity.
Qed.













(** *** The two rules that split on cases *)

Section CaseSplit.
Variables (context : Context) (inferred_named_state : NamedState)
  (F : Formula) (named_states : list NamedState)
  (attribute_interpretation : AttributeInterpretation)
  (variable_assignment : VariableAssignment) (formulae : list Formula).

Let rule_C1 : M bool :=
  diagrammatic_to_diagrammatic context inferred_named_state named_states
    attribute_interpretation variable_assignment formulae.

Let rule_C3 : M bool :=
  diagrammatic_to_sentential context F named_states
    attribute_interpretation variable_assignment formulae.

(** What the two rules, started in [s], do from the proviso on, which is
    asked in store [s1] against [assumption_base]: the ValueError of the
    proviso when it fails; else the answer of the entailment of the
    conclusion from the extended context. *)
Definition from_proviso (s : store) (assumption_base : AssumptionBase)
    (s1 : store) : Prop :=
  forall proviso s2,
    is_named_entailment (_named_state context s1) assumption_base
      (Some attribute_interpretation) named_states s1 = (Ok proviso, s2) ->
    (proviso = false ->
     rule_C1 s = (Raise (no_proviso "[C1]"), s2) /\
     rule_C3 s = (Raise (no_proviso "[C3]"), s2)) /\
    (proviso = true ->
     forall extended_context s3,
       extended context formulae s2 = (Ok extended_context, s3) ->
       (forall entailed s4,
          entails_named_state extended_context inferred_named_state
            attribute_interpretation s3 = (Ok entailed, s4) ->
          rule_C1 s = (Ok entailed, s4)) /\
       (forall entailed s4,
          entails_formula extended_context F attribute_interpretation s3
          = (Ok entailed, s4) ->
          rule_C3 s = (Ok entailed, s4))).

Lemma from_proviso_intro (s s1 : store) (assumption_base : AssumptionBase) :
  (forall tag (k : unit -> M bool),
     bind (case_split tag context named_states attribute_interpretation
             variable_assignment formulae) k s
     = bind (do ns <- read (_named_state context);
             do proviso <- is_named_entailment ns assumption_base
                             (Some attribute_interpretation) named_states;
             if negb proviso then raise (no_proviso tag) else ret tt)
         k s1) ->
  from_proviso s assumption_base s1.
Proof.
  intros Hsplit proviso s2 Hp.
  unfold rule_C1, rule_C3, diagrammatic_to_diagrammatic,
    diagrammatic_to_sentential.
  rewrite !Hsplit. repeat run_step.
  destruct proviso; simpl; (split; intros Hproviso; try discriminate).
  - intros extended_context s3 Hext. split; intros entailed s4 Hent;
      repeat run_step; destruct entailed; reflexivity.
  - repeat run_step. split; reflexivity.
Qed.

(** C3, as the code has it.  With formulae, rules [C1] and [C3] raise
    ValueError when the named states are not exhaustive on the basis of the
    formulae, then ask the proviso against the assumption base made of the
    formulae.  With none, they ask it against a new assumption base made
    from the vocabulary of the context's one alone, not against the
    context's own.  A proviso that fails raises ValueError; one that holds
    gives the entailment of the conclusion from the context over the union
    of the context's formulae and the given ones as the answer. *)
Theorem case_split_rules_spec (s : store) :
  (formulae <> [] ->
   forall basis exhaustive s1 s2,
     get_basis (_p (_named_state context s) s) variable_assignment
       attribute_interpretation formulae s = (Ok basis, s1) ->
     is_exhaustive (_named_state context s1) basis named_states s1
     = (Ok exhaustive, s2) ->
     (exhaustive = false ->
      rule_C1 s = (Raise not_exhaustive, s2) /\
      rule_C3 s = (Raise not_exhaustive, s2)) /\
     (exhaustive = true ->
      forall assumption_base s3,
        AssumptionBase_of formulae s2 = (Ok assumption_base, s3) ->
        from_proviso s assumption_base s3)) /\
  (formulae = [] ->
   forall assumption_base s1,
     AssumptionBase_over (_vocabulary (_assumption_base context s) s) s
     = (Ok assumption_base, s1) ->
     from_proviso s assumption_base s1) /\
  (forall t assumption_base_union t',
     _formulae (_assumption_base context t) t ++ formulae <> [] ->
     AssumptionBase_of (_formulae (_assumption_base context t) t ++ formulae)
       t = (Ok assumption_base_union, t') ->
     extended context formulae t
     = Context_of assumption_base_union (_named_state context t') t').
Proof.
  split; [|split].
  - intros Hne basis exhaustive s1 s2 Hbasis Hex.
    assert (Hif : nonempty formulae = true)
      by (destruct formulae; [congruence|reflexivity]).
    destruct exhaustive; (split; intros Hexhaustive; try discriminate).
    + intros assumption_base s3 Hab. apply from_proviso_intro.
      intros tag k. unfold case_split. rewrite Hif.
      repeat run_step. simpl. repeat run_step. reflexivity.
    + unfold rule_C1, rule_C3, diagrammatic_to_diagrammatic,
        diagrammatic_to_sentential, case_split.
      rewrite Hif. repeat run_step. simpl. repeat run_step.
      split; reflexivity.
  - intros Hnil assumption_base s1 Hab.
    assert (Hif : nonempty formulae = false) by (rewrite Hnil; reflexivity).
    apply from_proviso_intro.
    intros tag k. unfold case_split. rewrite Hif.
    repeat run_step. reflexivity.
  - intros t union t' Hne Hab. unfold extended. repeat run_step.
    assert (Hif : nonempty (_formulae (_assumption_base context t) t
                            ++ formulae) = true).
    { destruct (_ ++ _); [congruence|reflexivity]. }
    rewrite Hif. repeat run_step. reflexivity.
Qed.

End CaseSplit.

(** *** Kinds *)

(** X14: [widening] looks at the kinds of its arguments before anything
    else: given no Context it raises the TypeError of the context, whatever
    the named state is; given a Context and no NamedState it raises the one
    of the named state; in both cases no method is called, the store being
    left as it was, and [thinning] and [diagrammatic_absurdity] leave with
    the same exception. *)
Theorem widening_kinds (context named_state : pyobj)
    (attribute_interpretation : option AttributeInterpretation) (s : store) :
  (is_Context context = false ->
   widening context named_state attribute_interpretation s
   = (Raise not_a_Context, s)) /\
  (is_Context context = true -> is_NamedState named_state = false ->
   widening context named_state attribute_interpretation s
   = (Raise not_a_NamedState, s)) /\
  (is_Context context && is_NamedState named_state = false ->
   forall b i j,
     thinning context named_state b i s
     = widening context named_state attribute_interpretation s /\
     diagrammatic_absurdity context named_state j s
     = widening context named_state attribute_interpretation s).
Proof.
  split; [|split].
  - destruct context; simpl; intros; try reflexivity; discriminate.
  - destruct context; simpl; try discriminate. intros _.
    destruct named_state; simpl; intros; try reflexivity; discriminate.
  - destruct context; simpl; intros; try (split; reflexivity).
    destruct named_state; simpl in *; try (split; reflexivity).
    discriminate.
Qed.

(** *** The answer of the rule that splits a sentence into a sentence *)

Lemma sentential_to_sentential_run (context : Context)
    (F1 F2 G : Formula) (attribute_interpretation : AttributeInterpretation)
    (variable_assignment : option VariableAssignment)
    (s s0 s1 s2 : store) (X : VariableAssignment) (v1 v2 : atom) :
  or_dummy context variable_assignment s = (Ok X, s0) ->
  assign_truth_value F1 attribute_interpretation (_named_state context s0) X
    s0 = (Ok v1, s1) ->
  assign_truth_value F2 attribute_interpretation (_named_state context s1) X
    s1 = (Ok v2, s2) ->
  sentential_to_sentential context F1 F2 G attribute_interpretation
    variable_assignment s
  = if negb (is_True v1) && negb (is_True v2) then (Raise no_disjunct, s2)
    else
      match assign_truth_value G attribute_interpretation
              (_named_state context s2) X s2 with
      | (Ok vG, s3) =>
          (Ok (if truthy v1 && negb (truthy vG) then false
               else if truthy v2 && negb (truthy vG) then false
               else true), s3)
      | (Raise e, s3) => (Raise e, s3)
      end.
Proof.
  intros HX H1 H2.
  pose proof (disjunction_holds_spec _ _ _ _ _ _ _ _ _ _ _ _ HX H1 H2)
    as Hd.
  unfold sentential_to_sentential. unfold bind at 1. rewrite Hd.
  destruct (negb (is_True v1) && negb (is_True v2)); [reflexivity|].
  rewrite bind_read. unfold bind.
  destruct (assign_truth_value G _ _ _ _) as [[vG|e] s3]; [|reflexivity].
  destruct (truthy v1 && negb (truthy vG)); [reflexivity|].
  destruct (truthy v2 && negb (truthy vG)); reflexivity.
Qed.

(** X15: when [sentential_to_sentential] returns, its answer is whether G
    holds.  F1 and F2 decide whether the rule raises the ValueError of the
    disjunction; once one of them is True the rule evaluates G and answers
    with the test [if] makes of its truth value, and an exception of that
    evaluation leaves the rule. *)
Theorem sentential_to_sentential_answer (context : Context)
    (F1 F2 G : Formula) (attribute_interpretation : AttributeInterpretation)
    (variable_assignment : option VariableAssignment)
    (s s0 s1 s2 : store) (X : VariableAssignment) (v1 v2 : atom) :
  or_dummy context variable_assignment s = (Ok X, s0) ->
  assign_truth_value F1 attribute_interpretation (_named_state context s0) X
    s0 = (Ok v1, s1) ->
  assign_truth_value F2 attribute_interpretation (_named_state context s1) X
    s1 = (Ok v2, s2) ->
  is_True v1 = true \/ is_True v2 = true ->
  (forall vG s3,
     assign_truth_value G attribute_interpretation (_named_state context s2)
       X s2 = (Ok vG, s3) ->
     sentential_to_sentential context F1 F2 G attribute_interpretation
       variable_assignment s = (Ok (truthy vG), s3)) /\
  (forall e s3,
     assign_truth_value G attribute_interpretation (_named_state context s2)
       X s2 = (Raise e, s3) ->
     sentential_to_sentential context F1 F2 G attribute_interpretation
       variable_assignment s = (Raise e, s3)).
Proof.
  intros HX H1 H2 Hone.
  assert (Hcond : negb (is_True v1) && negb (is_True v2) = false).
  { destruct Hone as [Hv|Hv]; rewrite Hv; simpl;
      rewrite ?andb_false_r; reflexivity. }
  assert (Htrue : forall v, is_True v = true -> truthy v = true).
  { intros [|[]| |]; simpl; congruence. }
  split.
  - intros vG s3 HG.
    rewrite (sentential_to_sentential_run _ _ _ G _ _ _ _ _ _ _ _ _ HX H1 H2).
    rewrite Hcond, HG.
    destruct Hone as [Hv|Hv]; apply Htrue in Hv; rewrite Hv;
      destruct (truthy vG), (truthy v1), (truthy v2); reflexivity.
  - intros e s3 HG.
    rewrite (sentential_to_sentential_run _ _ _ G _ _ _ _ _ _ _ _ _ HX H1 H2).
    rewrite Hcond, HG. reflexivity.
Qed.

(** X16: the rule does not tell F1 from F2.  Where evaluating the two
    leaves the store as it is, [sentential_to_sentential] gives the same
    outcome with the two disjuncts in either order. *)
Theorem sentential_to_sentential_symmetric (context : Context)
    (F1 F2 G : Formula) (attribute_interpretation : AttributeInterpretation)
    (variable_assignment : option VariableAssignment)
    (s s0 : store) (X : VariableAssignment) (v1 v2 : atom) :
  or_dummy context variable_assignment s = (Ok X, s0) ->
  assign_truth_value F1 attribute_interpretation (_named_state context s0) X
    s0 = (Ok v1, s0) ->
  assign_truth_value F2 attribute_interpretation (_named_state context s0) X
    s0 = (Ok v2, s0) ->
  sentential_to_sentential context F1 F2 G attribute_interpretation
    variable_assignment s
  = sentential_to_sentential context F2 F1 G attribute_interpretation
      variable_assignment s.
Proof.
  intros HX H1 H2.
  rewrite (sentential_to_sentential_run _ _ _ G _ _ _ _ _ _ _ _ _ HX H1 H2).
  rewrite (sentential_to_sentential_run _ _ _ G _ _ _ _ _ _ _ _ _ HX H2 H1).
  destruct (is_True v1), (is_True v2); simpl; try reflexivity;
    destruct (assign_truth_value G _ _ _ _) as [[vG|e] s3];
    try reflexivity;
    destruct (truthy v1), (truthy v2), (truthy vG); reflexivity.
Qed.

(** *** The loops of the rule that splits a sentence into a diagram *)

(** X17: how the loops of [sentential_to_diagrammatic] end.  Once the
    disjunction holds and the two contexts are built: a named state
    without worlds makes the rule answer true; a world without variable
    assignments is passed over; the first variable assignment of the first
    world that fails one of the two contexts makes the rule answer false
    at once, whatever the worlds after it would do; and both contexts are
    asked before either answer is looked at, so an exception of the second
    leaves the rule even when the first has answered false. *)
Theorem sentential_to_diagrammatic_loops (context : Context)
    (F1 F2 : Formula) (named_state : NamedState)
    (attribute_interpretation : AttributeInterpretation)
    (variable_assignment : option VariableAssignment)
    (s s0 s1 s2 s3 s4 s5 s6 t : store) (X : VariableAssignment)
    (v1 v2 : atom) (f1_assumption_base f2_assumption_base : AssumptionBase)
    (f1_context f2_context : Context) (possible_worlds : list NamedState) :
  or_dummy context variable_assignment s = (Ok X, s0) ->
  assign_truth_value F1 attribute_interpretation (_named_state context s0) X
    s0 = (Ok v1, s1) ->
  assign_truth_value F2 attribute_interpretation (_named_state context s1) X
    s1 = (Ok v2, s2) ->
  is_True v1 = true \/ is_True v2 = true ->
  with_formula context F1 s2 = (Ok f1_assumption_base, s3) ->
  with_formula context F2 s3 = (Ok f2_assumption_base, s4) ->
  Context_of f1_assumption_base (_named_state context s4) s4
  = (Ok f1_context, s5) ->
  Context_of f2_assumption_base (_named_state context s5) s5
  = (Ok f2_context, s6) ->
  get_worlds named_state s6 = (Ok possible_worlds, t) ->
  let rule :=
    sentential_to_diagrammatic context F1 F2 named_state
      attribute_interpretation variable_assignment in
  (possible_worlds = [] -> rule s = (Ok true, t)) /\
  (forall world worlds t1,
     possible_worlds = world :: worlds ->
     _generate_variable_assignments world t = (Ok [], t1) ->
     rule s
     = for_worlds f1_context f2_context attribute_interpretation worlds t1) /\
  (forall world worlds Y Ys t1 t2 t3 b1 b2,
     possible_worlds = world :: worlds ->
     _generate_variable_assignments world t = (Ok (Y :: Ys), t1) ->
     satisfies_context world f1_context Y attribute_interpretation t1
     = (Ok b1, t2) ->
     satisfies_context world f2_context Y attribute_interpretation t2
     = (Ok b2, t3) ->
     b1 && b2 = false ->
     rule s = (Ok false, t3)) /\
  (forall world worlds Y Ys t1 t2 t3 b1 e,
     possible_worlds = world :: worlds ->
     _generate_variable_assignments world t = (Ok (Y :: Ys), t1) ->
     satisfies_context world f1_context Y attribute_interpretation t1
     = (Ok b1, t2) ->
     satisfies_context world f2_context Y attribute_interpretation t2
     = (Raise e, t3) ->
     rule s = (Raise e, t3)).
Proof.
  intros HX H1 H2 Hone Hab1 Hab2 Hc1 Hc2 Hw rule.
  pose proof (disjunction_holds_spec _ _ _ _ _ _ _ _ _ _ _ _ HX H1 H2)
    as Hd.
  assert (Hcond : negb (is_True v1) && negb (is_True v2) = false).
  { destruct Hone as [Hv|Hv]; rewrite Hv; simpl;
      rewrite ?andb_false_r; reflexivity. }
  rewrite Hcond in Hd.
  assert (Hrun : rule s
                 = for_worlds f1_context f2_context attribute_interpretation
                     possible_worlds t).
  { unfold rule, sentential_to_diagrammatic. repeat run_step. reflexivity. }
  rewrite Hrun. clear Hrun Hd Hw Hc1 Hc2 Hab1 Hab2 H1 H2 HX.
  split; [|split; [|split]].
  - intros ->. reflexivity.
  - intros world worlds t1 -> Hgen. simpl. repeat run_step. reflexivity.
  - intros world worlds Y Ys t1 t2 t3 b1 b2 -> Hgen Hs1 Hs2 Hb.
    simpl. repeat first [run_step|progress simpl].
    destruct b1, b2; try discriminate; simpl; repeat run_step; reflexivity.
  - intros world worlds Y Ys t1 t2 t3 b1 e -> Hgen Hs1 Hs2.
    simpl. repeat first [run_step|progress simpl]. reflexivity.
Qed.

(** *** Rules [C1] and [C3] side by side *)

(** X18: rules [C1] and [C3] part only at their last call.  On the same
    arguments, in the same store, either both raise, in the same store and
    with the same exception, but for the rule's name in the ValueError of
    the proviso; or both reach their conclusion with the same extended
    context [c] in the same store, where [C1] is the call
    [c.entails_named_state(inferred_named_state, ...)] and [C3] is the call
    [c.entails_formula(F, ...)]. *)
Theorem case_split_rules_alike (context : Context)
    (named_states : list NamedState)
    (attribute_interpretation : AttributeInterpretation)
    (variable_assignment : VariableAssignment) (formulae : list Formula)
    (inferred_named_state : NamedState) (F : Formula) (s : store) :
  let rule_C1 :=
    diagrammatic_to_diagrammatic context inferred_named_state named_states
      attribute_interpretation variable_assignment formulae in
  let rule_C3 :=
    diagrammatic_to_sentential context F named_states
      attribute_interpretation variable_assignment formulae in
  (exists e1 e3 s',
     rule_C1 s = (Raise e1, s') /\ rule_C3 s = (Raise e3, s') /\
     (e1 = e3 \/
      (e1 = no_proviso "[C1]" /\ e3 = no_proviso "[C3]"))) \/
  (exists c s',
     rule_C1 s
     = entails_named_state c inferred_named_state attribute_interpretation
         s' /\
     rule_C3 s = entails_formula c F attribute_interpretation s').
Proof.
  intros rule_C1 rule_C3.
  unfold rule_C1, rule_C3, diagrammatic_to_diagrammatic,
    diagrammatic_to_sentential, case_split.
  set (A := if nonempty formulae then _ else _).
  destruct (A s) as [[ab|e] s1] eqn:HA; repeat run_step;
    [|left; exists e, e, s1; auto].
  destruct (is_named_entailment (_named_state context s1) ab
              (Some attribute_interpretation) named_states s1)
    as [[proviso|e] s2] eqn:Hp; repeat run_step;
    [|left; exists e, e, s2; auto].
  destruct proviso; simpl; repeat run_step;
    [|left; exists (no_proviso "[C1]"), (no_proviso "[C3]"), s2; auto].
  destruct (extended context formulae s2) as [[c|e] s3] eqn:Hext;
    repeat run_step; [|left; exists e, e, s3; auto].
  right. exists c, s3. unfold bind.
  destruct (entails_named_state _ _ _ _) as [[[]|e1] s4];
    destruct (entails_formula _ _ _ _) as [[[]|e3] s5]; split; reflexivity.
Qed.

End Rules.

End Rules.

(** ** An engine to run the rules on

    The classes of the entailment engine are not among the sources.  This
    module gives them the reading of sections 3 and 4.1 to 4.3 of the spec,
    to have objects to evaluate the rules on; the theorems on the rules do
    not rest on it. *)

Module Model.

Notation "'let?' x := r 'in' k" := (rbind r (fun x => k))
  (at level 10, x name, r at level 100, k at level 200, only parsing).

(** [for x in l: if not f(x): return False] and then [return True]. *)
Fixpoint all_of {A} (f : A -> result bool) (l : list A) : result bool :=
  match l with
  | [] => Ok true
  | x :: l' => let? b := f x in if b then all_of f l' else Ok false
  end.

Fixpoint each {A B} (f : A -> result B) (l : list A) : result (list B) :=
  match l with
  | [] => Ok []
  | x :: l' => let? y := f x in let? ys := each f l' in Ok (y :: ys)
  end.

(** Modelled from the spec: a ValueSet is a subset of another. *)
Definition subset (u v : list string) : bool :=
  forallb (fun x => Voc.mem x v) u.

(** Modelled from the spec: the State and World model of section 3 and
    4.1, whose classes are not among the sources.  A ValueSet is a list of
    values read as a set; an AttributeSystem is a list of attributes, each
    with its domain, and a list of objects; a State keeps a ValueSet for
    the pairs of attribute and object it has been told about, and the
    whole domain for the others. *)
Definition ValueSet : Type := list string.

Record Attribute : Type := { label : string; domain : ValueSet }.

Record AttributeSystem : Type := {
  attributes : list Attribute;
  objects : list string
}.

Record State : Type := {
  attribute_system : AttributeSystem;
  ascriptions : gmap (string * string) ValueSet
}.

Global Instance Attribute_eq_dec : EqDecision Attribute.
Proof. solve_decision. Defined.

Global Instance AttributeSystem_eq_dec : EqDecision AttributeSystem.
Proof. solve_decision. Defined.

Global Instance State_eq_dec : EqDecision State.
Proof. solve_decision. Defined.

Global Instance Vocabulary_eq_dec : EqDecision Voc.Vocabulary.
Proof. solve_decision. Defined.

(** Modelled from the spec: the pairs of attribute and object of an
    AttributeSystem. *)
Definition pairs (A : AttributeSystem) : list (Attribute * string) :=
  flat_map (fun a => map (fun o => (a, o)) (objects A)) (attributes A).

(** Modelled from the spec: the ValueSet of a pair; a pair the state has
    not been told about has the whole domain. *)
Definition ascription (s : State) (ao : Attribute * string) : ValueSet :=
  default (domain (fst ao)) (ascriptions s !! (label (fst ao), snd ao)).

(** Modelled from the spec: [is_world], every ascription a singleton. *)
Definition is_world (s : State) : bool :=
  forallb (fun ao => (length (ascription s ao) =? 1)%nat)
    (pairs (attribute_system s)).

(** Modelled from the spec: the worlds of a state, one value taken from
    the ValueSet of every pair (the Cartesian product of the
    ascriptions). *)
Fixpoint completions (s : State) (aos : list (Attribute * string))
  : list (gmap (string * string) ValueSet) :=
  match aos with
  | [] => [∅]
  | ao :: aos' =>
      flat_map
        (fun v => map (insert (label (fst ao), snd ao) [v])
                    (completions s aos'))
        (ascription s ao)
  end.

(** Modelled from the spec: [get_worlds] on a State. *)
Definition worlds_of (s : State) : list State :=
  map (fun m => {| attribute_system := attribute_system s;
                   ascriptions := m |})
    (completions s (pairs (attribute_system s))).

(** Modelled from the spec: extension.  [s1 <= s2] when [s1] is an
    extension of [s2]: both are over one AttributeSystem and every ValueSet
    of [s1] is a subset of the one [s2] has; over two AttributeSystems it
    is a type error.  Section 3 writes the order both ways; the rules fix
    it: thinning, which gains information, asks
    [named_state <= context._named_state] (section 4.4 and the rule's
    docstring), and widening, which gives information up, asks
    [context._named_state <= named_state]. *)
Definition State_le (s1 s2 : State) : result bool :=
  if decide (attribute_system s1 = attribute_system s2) then
    Ok (forallb (fun ao => subset (ascription s1 ao) (ascription s2 ao))
          (pairs (attribute_system s1)))
  else Raise (TypeError "states over different attribute systems").

(** Modelled from the spec: assignments of constants and of variables to
    objects, and a State with a naming of some of its objects. *)
Record ConstantAssignment : Type := {
  ca_vocabulary : Voc.Vocabulary;
  ca_attribute_system : AttributeSystem;
  ca_mapping : gmap string string
}.

Record VariableAssignment : Type := {
  va_vocabulary : Voc.Vocabulary;
  va_attribute_system : AttributeSystem;
  va_mapping : gmap string string;
  va_dummy : bool
}.

Record NamedState : Type := {
  state : State;
  p : ConstantAssignment
}.

Global Instance ConstantAssignment_eq_dec : EqDecision ConstantAssignment.
Proof. solve_decision. Defined.

Global Instance NamedState_eq_dec : EqDecision NamedState.
Proof. solve_decision. Defined.

(** Modelled from the spec: two named states are compared on their states,
    and their namings must agree. *)
Definition NamedState_le (n1 n2 : NamedState) : result bool :=
  let? b := State_le (state n1) (state n2) in
  Ok (b && bool_decide (ca_mapping (p n1) = ca_mapping (p n2))).

(** Modelled from the spec: [get_worlds] on a NamedState; the worlds keep
    its naming. *)
Definition named_worlds (n : NamedState) : list NamedState :=
  map (fun w => {| state := w; p := p n |}) (worlds_of (state n)).

(** Modelled from the spec: a world refines a named state when it is one
    of its worlds: a world over the same AttributeSystem, under the same
    naming, whose value for every pair is in the ValueSet of the named
    state. *)
Definition refines (w n : NamedState) : bool :=
  bool_decide (attribute_system (state w) = attribute_system (state n))
  && bool_decide (ca_mapping (p w) = ca_mapping (p n))
  && is_world (state w)
  && forallb (fun ao => subset (ascription (state w) ao)
                          (ascription (state n) ao))
       (pairs (attribute_system (state w))).

(** Modelled from the spec: formulas, section 3, each over a
    Vocabulary. *)
Inductive shape : Type :=
| Atomic (R : Voc.RelationSymbol) (terms : list string)
| Equal (t1 t2 : string)
| Not (f : shape)
| And (f g : shape)
| Or (f g : shape)
| Implies (f g : shape).

Global Instance shape_eq_dec : EqDecision shape.
Proof. solve_decision. Defined.

Record Formula : Type := {
  f_vocabulary : Voc.Vocabulary;
  f_shape : shape
}.

Global Instance Formula_eq_dec : EqDecision Formula.
Proof. solve_decision. Defined.

(** Modelled from the spec: an AssumptionBase, the formulas of a proof
    line without repetition and over one Vocabulary.  As a collection it
    counts as false when it is empty. *)
Record AssumptionBase : Type := {
  ab_vocabulary : Voc.Vocabulary;
  ab_formulae : list Formula
}.

(** Modelled from the spec: the formulas without repetition, in their
    order. *)
Fixpoint first_of_each (l : list Formula) (seen : list Formula)
  : list Formula :=
  match l with
  | [] => []
  | f :: l' =>
      if Voc.mem f seen then first_of_each l' seen
      else f :: first_of_each l' (f :: seen)
  end.

(** Modelled from the spec: the AssumptionBase built from formulae, an
    error unless they are over one Vocabulary. *)
Definition AssumptionBase_of (formulae : list Formula)
  : result AssumptionBase :=
  match formulae with
  | [] => Raise (TypeError "an assumption base needs a formula")
  | f :: _ =>
      if forallb (fun g => bool_decide (f_vocabulary g = f_vocabulary f))
           formulae
      then Ok {| ab_vocabulary := f_vocabulary f;
                 ab_formulae := first_of_each formulae [] |}
      else Raise (ValueError "formulae over different vocabularies")
  end.

(** Modelled from the spec: [AssumptionBase(vocabulary)], the assumption
    base without formulae that the rules build when they have none. *)
Definition AssumptionBase_over (v : Voc.Vocabulary) : AssumptionBase :=
  {| ab_vocabulary := v; ab_formulae := [] |}.

(** Modelled from the spec: [F + assumption_base], the assumption base
    with [F] added. *)
Definition Formula_add (F : Formula) (b : AssumptionBase)
  : result AssumptionBase :=
  AssumptionBase_of (F :: ab_formulae b).

(** Modelled from the spec: a Context, an assumption base with a named
    state. *)
Record Context : Type := {
  c_assumption_base : AssumptionBase;
  c_named_state : NamedState
}.

(** Modelled from the spec: an AttributeInterpretation gives every
    relation symbol its profiles, each a tuple of attributes with a test
    of the tuple of their values. *)
Record Profile : Type := {
  profile_attributes : list string;
  profile_holds : list string -> bool
}.

Definition AttributeInterpretation : Type :=
  list (Voc.RelationSymbol * list Profile).

(** Modelled from the spec: the profiles an interpretation gives a
    symbol. *)
Definition profiles_of (i : AttributeInterpretation) (R : Voc.RelationSymbol)
  : result (list Profile) :=
  match List.find (fun e => bool_decide (fst e = R)) i with
  | Some e => Ok (snd e)
  | None => Raise (ValueError "relation symbol without interpretation")
  end.

(** Modelled from the spec: a term is resolved to an object as a constant
    of the named state or as a variable of the assignment. *)
Definition resolve (n : NamedState) (X : VariableAssignment) (t : string)
  : result string :=
  match ca_mapping (p n) !! t with
  | Some o => Ok o
  | None =>
      match va_mapping X !! t with
      | Some o => Ok o
      | None => Raise (ValueError "term without object")
      end
  end.

(** Modelled from the spec: the value a world has for an attribute of an
    object. *)
Definition value_in (w : State) (a o : string) : result string :=
  match ascriptions w !! (a, o) with
  | Some [v] => Ok v
  | _ => Raise (KeyError "no single value for the pair")
  end.

(** Modelled from the spec: a profile's test on the values the objects
    have in a world, and whether some profile of a list passes it. *)
Definition profile_in (w : State) (objs : list string) (pr : Profile)
  : result bool :=
  let? vs := each (fun ao => value_in w (fst ao) (snd ao))
               (combine (profile_attributes pr) objs) in
  Ok (profile_holds pr vs).

Definition some_profile_in (prs : list Profile) (objs : list string)
    (w : State) : result bool :=
  let? bs := each (profile_in w objs) prs in Ok (existsb id bs).

(** Modelled from the spec: the three truth values, True, False, and a
    third for a formula the state leaves open (None here), with the
    strong Kleene tables. *)
Definition kleene_not (v : Rules.atom) : Rules.atom :=
  match v with
  | Rules.ABool b => Rules.ABool (negb b)
  | _ => Rules.ANone
  end.

Definition kleene_and (u v : Rules.atom) : Rules.atom :=
  match u, v with
  | Rules.ABool false, _ | _, Rules.ABool false => Rules.ABool false
  | Rules.ABool true, Rules.ABool true => Rules.ABool true
  | _, _ => Rules.ANone
  end.

Definition kleene_or (u v : Rules.atom) : Rules.atom :=
  kleene_not (kleene_and (kleene_not u) (kleene_not v)).

(** Modelled from the spec: [assign_truth_value], section 4.2.  An atomic
    formula is True when every completion of the state satisfies some
    profile of its symbol, False when every completion falsifies every
    profile, and open otherwise; an equality compares the two objects; the
    connectives follow the strong Kleene tables. *)
Fixpoint truth_of (i : AttributeInterpretation) (n : NamedState)
    (X : VariableAssignment) (f : shape) : result Rules.atom :=
  match f with
  | Atomic R terms =>
      let? objs := each (resolve n X) terms in
      let? prs := profiles_of i R in
      let? bs := each (some_profile_in prs objs) (worlds_of (state n)) in
      Ok (if forallb id bs then Rules.ABool true
          else if existsb id bs then Rules.ANone
          else Rules.ABool false)
  | Equal t1 t2 =>
      let? o1 := resolve n X t1 in
      let? o2 := resolve n X t2 in
      Ok (Rules.ABool (bool_decide (o1 = o2)))
  | Not g => let? v := truth_of i n X g in Ok (kleene_not v)
  | And g h =>
      let? u := truth_of i n X g in
      let? v := truth_of i n X h in Ok (kleene_and u v)
  | Or g h =>
      let? u := truth_of i n X g in
      let? v := truth_of i n X h in Ok (kleene_or u v)
  | Implies g h =>
      let? u := truth_of i n X g in
      let? v := truth_of i n X h in Ok (kleene_or (kleene_not u) v)
  end.

(** Modelled from the spec: [F.assign_truth_value(interpretation,
    named_state, variable_assignment)]. *)
Definition assign_truth_value (F : Formula) (i : AttributeInterpretation)
    (n : NamedState) (X : VariableAssignment) : result Rules.atom :=
  truth_of i n X (f_shape F).

(** Modelled from the spec: the total assignments of the variables of the
    vocabulary to the objects. *)
Fixpoint assignments (vars objs : list string) : list (gmap string string) :=
  match vars with
  | [] => [∅]
  | v :: vars' =>
      flat_map (fun o => map (insert v o) (assignments vars' objs)) objs
  end.

(** Modelled from the spec: [_generate_variable_assignments]. *)
Definition generate_variable_assignments (w : NamedState)
  : list VariableAssignment :=
  map (fun m => {| va_vocabulary := ca_vocabulary (p w);
                   va_attribute_system := attribute_system (state w);
                   va_mapping := m;
                   va_dummy := false |})
    (assignments (Voc._V (ca_vocabulary (p w)))
       (objects (attribute_system (state w)))).

(** Modelled from the spec: the dummy variable assignment, an empty map
    with its flag set. *)
Definition dummy (v : Voc.Vocabulary) (A : AttributeSystem)
  : VariableAssignment :=
  {| va_vocabulary := v; va_attribute_system := A; va_mapping := ∅;
     va_dummy := true |}.

(** Modelled from the spec: a world with a variable assignment satisfies a
    context when it refines the named state of the context and every
    formula of the assumption base is True in it. *)
Definition satisfies_context (w : NamedState) (c : Context)
    (X : VariableAssignment) (i : AttributeInterpretation) : result bool :=
  if refines w (c_named_state c) then
    all_of (fun F => let? v := assign_truth_value F i w X in
                     Ok (Rules.is_True v))
      (ab_formulae (c_assumption_base c))
  else Ok false.

(** Modelled from the spec: the enumeration the entailment operators
    share; every world of [n], with every variable assignment over it, that
    satisfies [c] passes [test]. *)
Definition models_pass (n : NamedState) (c : Context)
    (i : AttributeInterpretation)
    (test : NamedState -> VariableAssignment -> result bool)
  : result bool :=
  all_of (fun w =>
    all_of (fun X =>
      let? sat := satisfies_context w c X i in
      if sat then test w X else Ok true)
      (generate_variable_assignments w))
    (named_worlds n).

(** Modelled from the spec: [Context.entails_named_state], section 4.3. *)
Definition entails_named_state (c : Context) (inferred : NamedState)
    (i : AttributeInterpretation) : result bool :=
  models_pass (c_named_state c) c i (fun w _ => Ok (refines w inferred)).

(** Modelled from the spec: [Context.entails_formula], section 4.3. *)
Definition entails_formula (c : Context) (F : Formula)
    (i : AttributeInterpretation) : result bool :=
  models_pass (c_named_state c) c i
    (fun w X => let? v := assign_truth_value F i w X in
                Ok (Rules.is_True v)).

(** Modelled from the spec: [NamedState.is_named_entailment], section
    4.3; every world with an assignment that satisfies the assumption base
    refines one of the named states. *)
Definition is_named_entailment (self : NamedState) (b : AssumptionBase)
    (i : option AttributeInterpretation) (named_states : list NamedState)
  : result bool :=
  match i with
  | None => Raise (TypeError "an attribute interpretation is needed")
  | Some i =>
      models_pass self {| c_assumption_base := b; c_named_state := self |} i
        (fun w _ => Ok (existsb (refines w) named_states))
  end.

(** [for x in l: if f(x): return True] and then [return False], and the
    elements of a list that pass a test. *)
Fixpoint any_of {A} (f : A -> result bool) (l : list A) : result bool :=
  match l with
  | [] => Ok false
  | x :: l' => let? b := f x in if b then Ok true else any_of f l'
  end.

Fixpoint keep {A} (f : A -> result bool) (l : list A) : result (list A) :=
  match l with
  | [] => Ok []
  | x :: l' =>
      let? b := f x in
      let? ys := keep f l' in Ok (if b then x :: ys else ys)
  end.

(** Modelled from the spec: a branch of a case split gives every formula
    a sign, section 4.3. *)
Definition Branch : Type := list (Formula * bool).

Fixpoint sign_combinations (formulae : list Formula) : list Branch :=
  match formulae with
  | [] => [[]]
  | F :: formulae' =>
      flat_map (fun sign => map (cons (F, sign)) (sign_combinations formulae'))
        [true; false]
  end.

(** Modelled from the spec: the formulae have the signs of the branch in
    a world. *)
Definition has_signs (i : AttributeInterpretation) (X : VariableAssignment)
    (w : NamedState) (b : Branch) : result bool :=
  all_of (fun Fs => let? v := assign_truth_value (fst Fs) i w X in
                    Ok (match v with
                        | Rules.ABool sign => Bool.eqb sign (snd Fs)
                        | _ => false
                        end)) b.

(** Modelled from the spec: a branch with the worlds that realize it. *)
Record Case : Type := {
  signs : Branch;
  models : list NamedState
}.

Definition Basis : Type := list Case.

(** Modelled from the spec: [Formula.get_basis], section 4.3: the sign
    combinations of the formulae that some world realizes, each with its
    worlds.  The call is given a constant assignment and no state; the
    worlds are the ones over the AttributeSystem of the constant
    assignment, under its naming. *)
Definition get_basis (constant_assignment : ConstantAssignment)
    (X : VariableAssignment) (i : AttributeInterpretation)
    (formulae : list Formula) : result Basis :=
  let open :=
    {| state := {| attribute_system :=
                     ca_attribute_system constant_assignment;
                   ascriptions := ∅ |};
       p := constant_assignment |} in
  let? cases :=
    each (fun b =>
            let? ws := keep (fun w => has_signs i X w b) (named_worlds open) in
            Ok {| signs := b; models := ws |})
      (sign_combinations formulae) in
  Ok (List.filter (fun c => Rules.nonempty (models c)) cases).

Definition same_worlds (u v : list NamedState) : bool :=
  forallb (fun w => Voc.mem w v) u && forallb (fun w => Voc.mem w u) v.

(** Modelled from the spec: a named state is the refinement of [self]
    that corresponds to a branch when its worlds are the worlds of [self]
    that realize the branch. *)
Definition covers (self : NamedState) (c : Case) (n : NamedState) : bool :=
  same_worlds (named_worlds n)
    (List.filter (fun w => refines w self) (models c)).

(** Modelled from the spec: [NamedState.is_exhaustive], section 4.3: the
    named states and the branches of the basis are as many, every branch
    has its named state, and every named state is the one of a branch. *)
Definition is_exhaustive (self : NamedState) (basis : Basis)
    (named_states : list NamedState) : result bool :=
  Ok ((length named_states =? length basis)%nat
      && forallb (fun c => existsb (covers self c) named_states) basis
      && forallb (fun n => existsb (fun c => covers self c n) basis)
           named_states).

(** Every object of the engine is a value: the store is empty and no call
    changes it. *)
Definition pure {A} (r : result A) : unit -> result A * unit :=
  fun s => (r, s).

(** Modelled from the spec: the classes the rules call into.  An
    assumption base counts as false when it has no formulae, as a
    collection does; the other objects count as true. *)
Global Instance engine : Rules.Collaborators := {|
  Rules.store := unit;
  Rules.Vocabulary := Voc.Vocabulary;
  Rules.AttributeSystem := AttributeSystem;
  Rules.ConstantAssignment := ConstantAssignment;
  Rules.VariableAssignment := VariableAssignment;
  Rules.AttributeInterpretation := AttributeInterpretation;
  Rules.Formula := Formula;
  Rules.AssumptionBase := AssumptionBase;
  Rules.NamedState := NamedState;
  Rules.Context := Context;
  Rules.Basis := Basis;
  Rules._named_state := fun c _ => c_named_state c;
  Rules._assumption_base := fun c _ => c_assumption_base c;
  Rules._p := fun n _ => p n;
  Rules._attribute_system := fun n _ => attribute_system (state n);
  Rules._p_vocabulary := fun a _ => ca_vocabulary a;
  Rules._vocabulary := fun b _ => ab_vocabulary b;
  Rules._formulae := fun b _ => ab_formulae b;
  Rules.AssumptionBase_bool := fun b _ => Rules.nonempty (ab_formulae b);
  Rules.AttributeInterpretation_bool := fun _ _ => true;
  Rules.VariableAssignment_bool := fun _ _ => true;
  Rules.AssumptionBase_of := fun l => pure (AssumptionBase_of l);
  Rules.AssumptionBase_over := fun v => pure (Ok (AssumptionBase_over v));
  Rules.Context_of := fun b n =>
    pure (Ok {| c_assumption_base := b; c_named_state := n |});
  Rules.VariableAssignment_dummy := fun v A => pure (Ok (dummy v A));
  Rules.__le__ := fun n1 n2 => pure (NamedState_le n1 n2);
  Rules.is_named_entailment := fun n b i l =>
    pure (is_named_entailment n b i l);
  Rules.is_exhaustive := fun n b l => pure (is_exhaustive n b l);
  Rules.get_worlds := fun n => pure (Ok (named_worlds n));
  Rules._generate_variable_assignments := fun w =>
    pure (Ok (generate_variable_assignments w));
  Rules.satisfies_context := fun w c X i => pure (satisfies_context w c X i);
  Rules.entails_named_state := fun c n i => pure (entails_named_state c n i);
  Rules.entails_formula := fun c F i => pure (entails_formula c F i);
  Rules.assign_truth_value := fun F i n X =>
    pure (assign_truth_value F i n X);
  Rules.get_basis := fun a X i l => pure (get_basis a X i l);
  Rules.Formula_add := fun F b => pure (Formula_add F b);
  Rules.AssumptionBase_contains := fun b F =>
    pure (Ok (Voc.mem F (ab_formulae b)))
|}.



(** *** Extension and entailment on the engine *)





End Model.

(** ** The rules on the diagrams of the spec's scenario *)

Module Scenario.
Import Model.

(** Two attributes, color and size, over the objects s1 and s2. *)
Definition color : Attribute :=
  {| label := "color"; domain := ["R"; "G"; "B"] |}.

Definition size : Attribute :=
  {| label := "size"; domain := ["S"; "M"; "L"] |}.

Definition system : AttributeSystem :=
  {| attributes := [color; size]; objects := ["s1"; "s2"] |}.

Definition Red : Voc.RelationSymbol :=
  {| Voc._name := "Red"; Voc._arity := 1 |}.

Definition vocabulary : Voc.Vocabulary :=
  {| Voc._C := ["c1"]; Voc._R := [Red]; Voc._V := ["x"] |}.

(** The constant c1 names s1. *)
Definition naming : ConstantAssignment :=
  {| ca_vocabulary := vocabulary;
     ca_attribute_system := system;
     ca_mapping := {[ "c1" := "s1" ]} |}.

(** Red holds of an object whose color is R. *)
Definition interpretation : AttributeInterpretation :=
  [(Red, [{| profile_attributes := ["color"];
             profile_holds := fun vs => bool_decide (vs = ["R"]) |}])].

Definition diagram (told : list (string * string * ValueSet)) : NamedState :=
  {| state := {| attribute_system := system;
                 ascriptions := list_to_map told |};
     p := naming |}.

(** color(s1) = {R}, size(s1) = {M}, nothing known of s2. *)
Definition s1_known : NamedState :=
  diagram [("color", "s1", ["R"]); ("size", "s1", ["M"])].


(** s2 is a small blue object, s1 of size M is red or green. *)
Definition red_or_green : NamedState :=
  diagram [("color", "s1", ["R"; "G"]); ("size", "s1", ["M"]);
           ("color", "s2", ["B"]); ("size", "s2", ["S"])].

Definition red : NamedState :=
  diagram [("color", "s1", ["R"]); ("size", "s1", ["M"]);
           ("color", "s2", ["B"]); ("size", "s2", ["S"])].

(** s1 is green: a world in which c1 is not red. *)
Definition green : NamedState :=
  diagram [("color", "s1", ["G"]); ("size", "s1", ["M"]);
           ("color", "s2", ["B"]); ("size", "s2", ["S"])].

Definition formula (f : shape) : Formula :=
  {| f_vocabulary := vocabulary; f_shape := f |}.

Definition c1_is_red : Formula := formula (Atomic Red ["c1"]).

Definition no_assumptions : AssumptionBase := AssumptionBase_over vocabulary.

Definition context_of (b : AssumptionBase) (n : NamedState) : Context :=
  {| c_assumption_base := b; c_named_state := n |}.

(** The arguments as the rules that look at their kind take them. *)
Definition a_Context (c : Context) : Rules.pyobj :=
  Rules.PyContext (E:=engine) c.

Definition a_NamedState (n : NamedState) : Rules.pyobj :=
  Rules.PyNamedState (E:=engine) n.

Definition not_an_object : Rules.pyobj :=
  Rules.PyAtom (E:=engine) Rules.ANone.

Example s1_known_worlds : length (named_worlds s1_known) = 9%nat.
Proof. vm_compute. reflexivity. Qed.


Definition red_assumed : AssumptionBase :=
  {| ab_vocabulary := vocabulary; ab_formulae := [c1_is_red] |}.

Definition nothing_bound : VariableAssignment := dummy vocabulary system.

(** C3 fails as stated for a call without formulae.  The context assumes
    that c1 is red and shows s1 red or green; the one branch is the diagram
    with s1 red.  Against the context's own assumption base the proviso
    holds, and the context entails the conclusion; the rules raise the
    ValueError of the proviso, which they ask against an assumption base
    without formulae. *)
Lemma case_split_without_formulae_counterexample :
  is_named_entailment red_or_green red_assumed (Some interpretation) [red]
  = Ok true /\
  entails_named_state (context_of red_assumed red_or_green) red
    interpretation = Ok true /\
  Rules.diagrammatic_to_diagrammatic (context_of red_assumed red_or_green)
    red [red] interpretation nothing_bound [] tt
  = (Raise (Rules.no_proviso "[C1]"), tt) /\
  Rules.diagrammatic_to_sentential (context_of red_assumed red_or_green)
    c1_is_red [red] interpretation nothing_bound [] tt
  = (Raise (Rules.no_proviso "[C3]"), tt).
Proof. vm_compute. repeat split. Qed.

(** The basis of the one formula [c1_is_red] under the scenario's
    naming: the branch in which it is True and the branch in which it is
    False. *)
Definition red_or_not : Basis :=
  match get_basis naming nothing_bound interpretation [c1_is_red] with
  | Ok basis => basis
  | Raise _ => []
  end.

Definition returns {A} (r : result A) : bool :=
  match r with Ok _ => true | Raise _ => false end.

Lemma red_or_not_basis :
  Rules.get_basis (Collaborators:=engine) naming nothing_bound interpretation
    [c1_is_red] tt
  = (Ok red_or_not, tt).
Proof.
  assert (Hreturns : returns (get_basis naming nothing_bound interpretation
                                [c1_is_red]) = true)
    by (vm_compute; reflexivity).
  unfold red_or_not.
  change (Rules.get_basis (Collaborators:=engine) naming nothing_bound
            interpretation [c1_is_red] tt)
    with (get_basis naming nothing_bound interpretation [c1_is_red], tt).
  destruct (get_basis naming nothing_bound interpretation [c1_is_red])
    as [basis|e]; [reflexivity|discriminate Hreturns].
Qed.

(** C3 at work.  The diagram shows s1 red or green.  Split on the formula
    that c1 is red, with the diagram in which s1 is red and the one in
    which it is green as the branches, rule [C1] concludes the diagram
    with s1 red; with the one branch alone it raises the ValueError for
    named states that are not exhaustive; and without formulae it asks the
    proviso against an assumption base without formulae. *)
Lemma case_split_rules_witness :
  Rules.diagrammatic_to_diagrammatic (context_of no_assumptions red_or_green)
    red [red; green] interpretation nothing_bound [c1_is_red] tt
  = (Ok true, tt) /\
  Rules.diagrammatic_to_diagrammatic (context_of no_assumptions red_or_green)
    red [red] interpretation nothing_bound [c1_is_red] tt
  = (Raise Rules.not_exhaustive, tt) /\
  Rules.diagrammatic_to_diagrammatic (context_of red_assumed red_or_green)
    red [red_or_green] interpretation nothing_bound [] tt
  = (Ok true, tt).
Proof.
  split; [|split].
  - destruct (Rules.case_split_rules_spec (E:=engine)
                (context_of no_assumptions red_or_green) red c1_is_red
                [red; green] interpretation nothing_bound [c1_is_red] tt)
      as (Hsome & _ & _).
    assert (Hformulae : [c1_is_red] <> []) by discriminate.
    assert (Hexhaustive : Rules.is_exhaustive (Collaborators:=engine)
                            red_or_green red_or_not [red; green] tt
                          = (Ok true, tt))
      by (vm_compute; reflexivity).
    destruct (Hsome Hformulae red_or_not true tt tt red_or_not_basis
                Hexhaustive) as [_ Hgoes].
    assert (Hbase : Rules.AssumptionBase_of (Collaborators:=engine)
                      [c1_is_red] tt
                    = (Ok red_assumed, tt)) by (vm_compute; reflexivity).
    pose proof (Hgoes eq_refl red_assumed tt Hbase) as Hfrom.
    assert (Hproviso : Rules.is_named_entailment
                         (Rules._named_state
                            (context_of no_assumptions red_or_green) tt)
                         red_assumed (Some interpretation) [red; green] tt
                       = (Ok true, tt)) by (vm_compute; reflexivity).
    destruct (Hfrom true tt Hproviso) as [_ Hholds].
    assert (Hext : Rules.extended (context_of no_assumptions red_or_green)
                     [c1_is_red] tt
                   = (Ok (context_of red_assumed red_or_green), tt))
      by (vm_compute; reflexivity).
    destruct (Hholds eq_refl _ tt Hext) as [HC1 _].
    apply HC1. vm_compute. reflexivity.
  - destruct (Rules.case_split_rules_spec (E:=engine)
                (context_of no_assumptions red_or_green) red c1_is_red
                [red] interpretation nothing_bound [c1_is_red] tt)
      as (Hsome & _ & _).
    assert (Hformulae : [c1_is_red] <> []) by discriminate.
    assert (Hexhaustive : Rules.is_exhaustive (Collaborators:=engine)
                            red_or_green red_or_not [red] tt
                          = (Ok false, tt))
      by (vm_compute; reflexivity).
    destruct (Hsome Hformulae red_or_not false tt tt red_or_not_basis
                Hexhaustive) as [Hstops _].
    exact (proj1 (Hstops eq_refl)).
  - destruct (Rules.case_split_rules_spec (E:=engine)
                (context_of red_assumed red_or_green) red c1_is_red
                [red_or_green] interpretation nothing_bound [] tt)
      as (_ & Hnone & _).
    assert (Hover : Rules.AssumptionBase_over
                      (Rules._vocabulary
                         (Rules._assumption_base
                            (context_of red_assumed red_or_green) tt) tt) tt
                    = (Ok no_assumptions, tt)) by reflexivity.
    pose proof (Hnone eq_refl no_assumptions tt Hover) as Hfrom.
    assert (Hproviso : Rules.is_named_entailment
                         (Rules._named_state
                            (context_of red_assumed red_or_green) tt)
                         no_assumptions (Some interpretation) [red_or_green]
                         tt
                       = (Ok true, tt)) by (vm_compute; reflexivity).
    destruct (Hfrom true tt Hproviso) as [_ Hholds].
    assert (Hext : Rules.extended (context_of red_assumed red_or_green) [] tt
                   = (Ok (context_of red_assumed red_or_green), tt))
      by (vm_compute; reflexivity).
    destruct (Hholds eq_refl _ tt Hext) as [HC1 _].
    apply HC1. vm_compute. reflexivity.
Defined.

Definition c1_is_not_red : Formula := formula (Not (Atomic Red ["c1"])).

Definition c1_is_c1 : Formula := formula (Equal "c1" "c1").



Lemma thinning_witness :
  Rules.thinning (a_Context (context_of no_assumptions red_or_green))
    (a_NamedState red) (Some red_assumed) (Some interpretation) tt
  = (Ok true, tt) /\
  Rules.thinning (a_Context (context_of no_assumptions red_or_green))
    (a_NamedState red) None None tt
  = (Ok true, tt) /\
  Rules.thinning not_an_object (a_NamedState red) None None tt
  = (Raise Rules.not_a_Context, tt).
Proof.
  split; [|split].
  - destruct (Rules.thinning_spec
                (a_Context (context_of no_assumptions red_or_green))
                (a_NamedState red) (Some red_assumed) (Some interpretation)
                tt) as (_ & _ & H).
    destruct (H _ _ eq_refl eq_refl) as (_ & Hsupplied & _).
    rewrite (Hsupplied _ eq_refl eq_refl). vm_compute. reflexivity.
  - destruct (Rules.thinning_spec
                (a_Context (context_of no_assumptions red_or_green))
                (a_NamedState red) None None tt) as (_ & _ & H).
    destruct (H _ _ eq_refl eq_refl) as (Hplain & _).
    rewrite (Hplain eq_refl). vm_compute. reflexivity.
  - destruct (Rules.thinning_spec not_an_object (a_NamedState red) None None
                tt) as (Hkind & _).
    apply Hkind. reflexivity.
Defined.

(** C6 fails as stated for an assumption base without formulae, which an
    [if] takes for false.  The diagram shows s1 red or green and the named
    state asked for shows it red: [is_named_entailment] against the
    assumption base without formulae is false, the named state extends
    the diagram, and [thinning], given that assumption base, answers
    true. *)
Lemma thinning_empty_base_counterexample :
  Rules.AssumptionBase_bool (Collaborators:=engine) no_assumptions tt = false /\
  is_named_entailment red_or_green no_assumptions (Some interpretation) [red]
  = Ok false /\
  NamedState_le red red_or_green = Ok true /\
  Rules.thinning (a_Context (context_of no_assumptions red_or_green))
    (a_NamedState red) (Some no_assumptions) (Some interpretation) tt
  = (Ok true, tt).
Proof. vm_compute. repeat split. Qed.






Lemma sentential_to_sentential_answer_witness :
  Rules.sentential_to_sentential (context_of no_assumptions red)
    c1_is_red c1_is_not_red c1_is_not_red interpretation None tt
  = (Ok false, tt).
Proof.
  assert (HX : Rules.or_dummy (context_of no_assumptions red) None tt
               = (Ok nothing_bound, tt)) by reflexivity.
  assert (H1 : Rules.assign_truth_value c1_is_red interpretation red
                 nothing_bound tt = (Ok (Rules.ABool true), tt))
    by (vm_compute; reflexivity).
  assert (H2 : Rules.assign_truth_value c1_is_not_red interpretation red
                 nothing_bound tt = (Ok (Rules.ABool false), tt))
    by (vm_compute; reflexivity).
  destruct (Rules.sentential_to_sentential_answer (E:=engine)
              (context_of no_assumptions red) c1_is_red c1_is_not_red
              c1_is_not_red interpretation None tt tt tt tt nothing_bound
              (Rules.ABool true) (Rules.ABool false)
              HX H1 H2 (or_introl eq_refl))
    as [Hreturns _].
  exact (Hreturns (Rules.ABool false) tt H2).
Defined.

Lemma sentential_to_sentential_symmetric_witness :
  Rules.sentential_to_sentential (context_of no_assumptions red)
    c1_is_red c1_is_not_red c1_is_c1 interpretation None tt
  = Rules.sentential_to_sentential (context_of no_assumptions red)
      c1_is_not_red c1_is_red c1_is_c1 interpretation None tt.
Proof.
  assert (HX : Rules.or_dummy (context_of no_assumptions red) None tt
               = (Ok nothing_bound, tt)) by reflexivity.
  assert (H1 : Rules.assign_truth_value c1_is_red interpretation red
                 nothing_bound tt = (Ok (Rules.ABool true), tt))
    by (vm_compute; reflexivity).
  assert (H2 : Rules.assign_truth_value c1_is_not_red interpretation red
                 nothing_bound tt = (Ok (Rules.ABool false), tt))
    by (vm_compute; reflexivity).
  exact (Rules.sentential_to_sentential_symmetric (E:=engine)
           (context_of no_assumptions red) c1_is_red c1_is_not_red c1_is_c1
           interpretation None tt tt nothing_bound
           (Rules.ABool true) (Rules.ABool false) HX H1 H2).
Defined.

Lemma sentential_to_diagrammatic_loops_witness :
  Rules.sentential_to_diagrammatic (context_of no_assumptions red_or_green)
    c1_is_c1 c1_is_red green interpretation None tt
  = (Ok false, tt).
Proof.
  assert (HX : Rules.or_dummy (context_of no_assumptions red_or_green) None
                 tt = (Ok nothing_bound, tt)) by reflexivity.
  assert (H1 : Rules.assign_truth_value c1_is_c1 interpretation red_or_green
                 nothing_bound tt = (Ok (Rules.ABool true), tt))
    by (vm_compute; reflexivity).
  assert (H2 : Rules.assign_truth_value c1_is_red interpretation red_or_green
                 nothing_bound tt = (Ok Rules.ANone, tt))
    by (vm_compute; reflexivity).
  set (b1 := {| ab_vocabulary := vocabulary; ab_formulae := [c1_is_c1] |}).
  set (f1_context := context_of b1 red_or_green).
  set (f2_context := context_of red_assumed red_or_green).
  assert (Hab1 : Rules.with_formula (context_of no_assumptions red_or_green)
                   c1_is_c1 tt = (Ok b1, tt)) by (vm_compute; reflexivity).
  assert (Hab2 : Rules.with_formula (context_of no_assumptions red_or_green)
                   c1_is_red tt = (Ok red_assumed, tt))
    by (vm_compute; reflexivity).
  assert (Hc1 : Rules.Context_of b1 red_or_green tt = (Ok f1_context, tt))
    by reflexivity.
  assert (Hc2 : Rules.Context_of red_assumed red_or_green tt
                = (Ok f2_context, tt)) by reflexivity.
  assert (Hworlds : Rules.get_worlds green tt = (Ok [green], tt))
    by (vm_compute; reflexivity).
  destruct (Rules.sentential_to_diagrammatic_loops (E:=engine)
              (context_of no_assumptions red_or_green) c1_is_c1 c1_is_red
              green interpretation None tt tt tt tt tt tt tt tt tt
              nothing_bound (Rules.ABool true) Rules.ANone b1 red_assumed
              f1_context f2_context [green]
              HX H1 H2 (or_introl eq_refl) Hab1 Hab2 Hc1 Hc2 Hworlds)
    as (_ & _ & Hfails & _).
  destruct (generate_variable_assignments green) as [|Y Ys] eqn:HYs;
    [discriminate|].
  assert (Hgen : Rules._generate_variable_assignments green tt
                 = (Ok (Y :: Ys), tt)).
  { simpl. unfold pure. rewrite HYs. reflexivity. }
  assert (Hs1 : Rules.satisfies_context green f1_context Y interpretation tt
                = (Ok true, tt)).
  { vm_compute in HYs. injection HYs as <- _. vm_compute. reflexivity. }
  assert (Hs2 : Rules.satisfies_context green f2_context Y interpretation tt
                = (Ok false, tt)).
  { vm_compute in HYs. injection HYs as <- _. vm_compute. reflexivity. }
  exact (Hfails green [] Y Ys tt tt tt true false eq_refl Hgen Hs1 Hs2
           eq_refl).
Defined.

End Scenario.
